(** * xgettext-js: extraction of translatable strings from a JavaScript AST

    A shallow embedding of [xgettext.js] (the acorn-based engine): keyword
    normalisation, collection of translator comments, discovery of keyword
    calls in the syntax tree and the transformation of matches into
    records.

    The JavaScript parser (acorn) and the regular-expression engine are
    libraries the engine calls: they are parameters of the development,
    taken as deterministic functions.  acorn's tree walker is modelled on
    the node kinds the engine distinguishes.  User-supplied transforms are
    functions that may throw and may read and change a state of their own;
    they are taken not to change the match they are given. *)

From stdpp Require Import gmap strings list fin_maps.
From Stdlib Require Import ZArith Ascii String.

Local Open Scope Z_scope.
Set Warnings "-register-all".

(** ** JavaScript values

    Numbers are the integer-valued ones.  Objects are either plain (built by
    an object literal or [Object]; what lodash's [isPlainObject] accepts) or
    instances of some other constructor (a class instance, a [Date], a
    [RegExp]).  Own properties are kept in insertion order. *)

Inductive value : Type :=
| VUndefined
| VNull
| VBoolean (b : bool)
| VNumber (n : Z)
| VString (s : string)
| VArray (elements : list value)
| VPlainObject (props : list (string * value))
| VInstance (constructor_name : string) (props : list (string * value)).

(** [Boolean(v)]: the falsy values are undefined, null, false, 0 and the
    empty string. *)
Definition Boolean (v : value) : bool :=
  match v with
  | VUndefined | VNull => false
  | VBoolean b => b
  | VNumber n => negb (n =? 0)
  | VString s => negb (String.eqb s EmptyString)
  | VArray _ | VPlainObject _ | VInstance _ _ => true
  end.

(** [_.isPlainObject(v)] *)
Definition isPlainObject (v : value) : bool :=
  match v with VPlainObject _ => true | _ => false end.

(** [v instanceof Array] *)
Definition instanceof_Array (v : value) : bool :=
  match v with VArray _ => true | _ => false end.

(** [typeof v === 'string'] *)
Definition typeof_string (v : value) : bool :=
  match v with VString _ => true | _ => false end.

(** [o[key]] on an object: undefined when the property is not there. *)
Fixpoint lookup_property (props : list (string * value)) (key : string) : value :=
  match props with
  | [] => VUndefined
  | (k, v) :: rest => if String.eqb k key then v else lookup_property rest key
  end.

Definition get_property (o : value) (key : string) : value :=
  match o with
  | VPlainObject props | VInstance _ props => lookup_property props key
  | _ => VUndefined
  end.

(** What a JavaScript call can throw. *)
Inductive exn : Type :=
| TypeError
| SyntaxError
| UserThrow (v : value).

Inductive outcome (A : Type) : Type :=
| Return (a : A)
| Throw (e : exn).
Arguments Return {A} a.
Arguments Throw {A} e.

Definition obind {A B} (o : outcome A) (k : A -> outcome B) : outcome B :=
  match o with
  | Return a => k a
  | Throw e => Throw e
  end.

(** ** Strings: whitespace and [String.prototype.trim]

    Strings are sequences of code units below 256.  The white space of
    [\s] and of [trim] in that range: TAB, LF, VT, FF, CR, SPACE, NBSP. *)

Definition is_whitespace (c : ascii) : bool :=
  let n := N_of_ascii c in
  ((9 <=? n) && (n <=? 13) || (n =? 32) || (n =? 160))%N.

Fixpoint trimStart (s : string) : string :=
  match s with
  | String c rest => if is_whitespace c then trimStart rest else s
  | EmptyString => EmptyString
  end.

Definition string_reverse (s : string) : string :=
  string_of_list_ascii (rev (list_ascii_of_string s)).

Definition trim (s : string) : string :=
  string_reverse (trimStart (string_reverse (trimStart s))).

(** ** The syntax tree (ESTree, as acorn builds it)

    The engine reads [type], [expressions], [property], [name], [value],
    [callee], [arguments] and [loc.start.line].  The node kinds that carry
    one of these are spelled out ([MetaProperty] is [new.target], which has
    a [property]).  An [ObjectPattern] (the left side of a destructuring
    such as [var { a: b } = c]) has its properties as triples of [key],
    [computed] and [value]: it is the one kind with a child that can hold
    a call and that the walker does not enter, the key of a property.
    Every other kind (statements, operators, functions, ...) is an
    [OtherNode] with the children the walker enters, in the walker's
    order; the children it leaves out there (labels, the names of
    properties that are not computed, ...) are identifiers and literals.  acorn builds a [SequenceExpression] from two or more
    expressions, so [expressions] is never empty: the constructor takes the
    first one apart. *)

Record Position := { pos_line : Z; pos_column : Z }.
Record SourceLocation := { loc_start : Position; loc_end : Position }.

Inductive node : Type :=
| Identifier (name : string)
| Literal (val : value)
| MemberExpression (object property : node) (computed : bool)
| SequenceExpression (first : node) (others : list node)
| CallExpression (callee : node) (arguments : list node) (loc : SourceLocation)
| NewExpression (callee : node) (arguments : list node)
| MetaProperty (meta property : node)
| OtherNode (type : string) (children : list node)
| ObjectPattern (properties : list (node * bool * node)).

(** [n.name], [n.property], [n.value]: [None] is JavaScript's undefined for
    a field the node kind does not have. *)
Definition node_name (n : node) : option string :=
  match n with Identifier name => Some name | _ => None end.

Definition node_property (n : node) : option node :=
  match n with
  | MemberExpression _ p _ | MetaProperty _ p => Some p
  | _ => None
  end.

Definition node_value (n : node) : value :=
  match n with Literal v => v | _ => VUndefined end.

(** [n.expressions] of a sequence expression *)
Definition expressions (first : node) (others : list node) : list node :=
  first :: others.

(** The loop
    [while ('SequenceExpression' === callee.type) callee = _.last(callee.expressions)].
    The recursion descends into the last expression only ([List.last] picks
    it among the resolved ones); [resolve_callee_step] below is the loop's
    unfolding. *)
Fixpoint resolve_callee (callee : node) : node :=
  match callee with
  | SequenceExpression e es => List.last (map resolve_callee es) (resolve_callee e)
  | _ => callee
  end.

(** [callee.property ? callee.property.name : callee.name] *)
Definition functionName (callee : node) : option string :=
  match node_property callee with
  | Some property => node_name property
  | None => node_name callee
  end.

(** ** acorn's [walk.simple] with a [CallExpression] visitor

    The walker visits a node's children first and calls the visitor on the
    node afterwards; for a call these are the callee, then the arguments.
    A member expression's property is walked only when it is computed and
    nothing is walked below a meta property.  Of the properties of an
    object pattern only the values are walked, never the keys, computed or
    not.  A [NewExpression] is walked
    like a call but its type is not ['CallExpression'], so the visitor is
    not called on it.  [walk_calls]
    lists the nodes the visitor is called on, in the order of the calls. *)

Record call_node := {
  call_callee : node;
  call_arguments : list node;
  call_loc : SourceLocation
}.

Fixpoint walk_calls (n : node) : list call_node :=
  match n with
  | Identifier _ | Literal _ | MetaProperty _ _ => []
  | MemberExpression object property computed =>
      walk_calls object ++ (if computed then walk_calls property else [])
  | SequenceExpression e es => walk_calls e ++ flat_map walk_calls es
  | CallExpression callee args loc =>
      walk_calls callee ++ flat_map walk_calls args
        ++ [ {| call_callee := callee; call_arguments := args; call_loc := loc |} ]
  | NewExpression callee args => walk_calls callee ++ flat_map walk_calls args
  | OtherNode _ children => flat_map walk_calls children
  | ObjectPattern properties =>
      flat_map (fun property => let '(_, _, val) := property in walk_calls val)
        properties
  end.

(** ** Matches, translator comments and the parser's interface *)

(** A match as [_discoverMatches] builds it:
    [{ arguments, keyword, line }] and, when a comment was found, [comment]. *)
Record jsmatch := {
  arguments : list node;
  keyword : string;
  line : Z;
  comment : option string
}.

(** A collected translator comment [{ value, line }]; [line] holds the
    position object acorn passes as the comment's start location, which is
    why the discoverer reads [translatorComment.line.line]. *)
Record translator_comment := {
  tc_value : string;
  tc_line : Position
}.

(** The arguments of one [onComment] call:
    [(block, text, start, end, startLoc, endLoc)]. *)
Record raw_comment := {
  rc_block : bool;
  rc_text : string;
  rc_start : Z;
  rc_end : Z;
  rc_startLoc : Position;
  rc_endLoc : Position
}.

(** What [parser.parse(input, { locations: true, onComment })] does when it
    does not throw: it returns the tree, having called [onComment] once per
    comment, in source order. *)
Record parse_output := {
  parsed_comments : list raw_comment;
  parsed_ast : node
}.

Record parsedInput := {
  comments : list translator_comment;
  ast : node
}.

(** A regular expression without the [g] flag, by its [exec]: index and
    length of the first match.  [test] and [replace] derive from it. *)
Definition regexp : Type := string -> option (nat * nat).

Definition rx_test (rx : regexp) (text : string) : bool :=
  match rx text with Some _ => true | None => false end.

(** [text.replace(rx, '')] *)
Definition rx_replace_empty (rx : regexp) (text : string) : string :=
  match rx text with
  | Some (i, n) =>
      (substring 0 i text
       +:+ substring (i + n) (String.length text - (i + n)) text)%nat
  | None => text
  end.

(** [array.indexOf(x)] on an array of strings *)
Fixpoint indexOf_from (l : list string) (x : string) (i : Z) : Z :=
  match l with
  | [] => -1
  | y :: t => if String.eqb y x then i else indexOf_from t x (i + 1)
  end.

Definition indexOf (l : list string) (x : string) : Z := indexOf_from l x 0.

(** [array[i]] for a number [i]: undefined out of range *)
Definition array_get {A} (l : list A) (i : Z) : option A :=
  if i <? 0 then None else l !! Z.to_nat i.

(** [if ( ! ( strings instanceof Array ) ) strings = [ strings ]] *)
Definition as_array (strings : value) : list value :=
  match strings with
  | VArray elements => elements
  | _ => [strings]
  end.

(** [_.flatten]: one level; an element that is not an array stays.  (The
    arrays [_transformMatch] returns hold records only, so a deep flatten
    gives the same list.) *)
Definition flatten (l : list value) : list value :=
  flat_map (fun v => match v with VArray xs => xs | _ => [v] end) l.

(** The test [start_line === comment_line || start_line - 1 === comment_line]. *)
Definition same_or_previous_line (start_line comment_line : Z) : bool :=
  (start_line =? comment_line) || (start_line - 1 =? comment_line).

(** The body of the [_.each] over the comments: the assignment
    [match.comment = translatorComment.value] under its line test. *)
Definition attach_comment (start_line : Z) (m : jsmatch)
    (translatorComment : translator_comment) : jsmatch :=
  if same_or_previous_line start_line (pos_line (tc_line translatorComment))
  then {| arguments := arguments m; keyword := keyword m; line := line m;
          comment := Some (tc_value translatorComment) |}
  else m.

(** The visitor's [functionName]: the name read off the resolved callee. *)
Definition called_name (node : call_node) : option string :=
  functionName (resolve_callee (call_callee node)).

(** The [CallExpression] visitor up to [matches.push( match )]: [None] is
    one of the early returns ([! functionName] holds for undefined and for
    the empty string). *)
Definition discover_call (keywordFunctions : list string)
    (comments : list translator_comment) (node : call_node) : option jsmatch :=
  match called_name node with
  | None => None
  | Some functionName =>
      if String.eqb functionName EmptyString then None
      else if indexOf keywordFunctions functionName =? -1 then None
      else
        let start_line := pos_line (loc_start (call_loc node)) in
        let match0 := {| arguments := call_arguments node;
                         keyword := functionName;
                         line := start_line;
                         comment := None |} in
        Some (fold_left (attach_comment start_line) comments match0)
  end.

(** The visitor, with the [matches] array it pushes to. *)
Definition visit_CallExpression (keywordFunctions : list string)
    (comments : list translator_comment)
    (matches : list jsmatch) (node : call_node) : list jsmatch :=
  match discover_call keywordFunctions comments node with
  | Some m => matches ++ [m]
  | None => matches
  end.

(** The record [{ string: string, line: match.line }] with [comment] added
    when [typeof match.comment !== 'undefined']. *)
Definition transformed_record (m : jsmatch) (s : value) : value :=
  VPlainObject
    ([("string"%string, s); ("line"%string, VNumber (line m))]
     ++ match comment m with
        | Some c => [("comment"%string, VString c)]
        | None => []
        end).

(** ** The engine *)

Section Engine.

(** Everything a user-supplied transform can read or change besides its
    argument (the variables its closure captured). *)
Variable W : Type.

(** [new RegExp(source, flags)], which throws on an invalid pattern. *)
Variable RegExp : string -> string -> outcome regexp.

(** [parser.parse] of acorn, which throws on a syntax error. *)
Variable parse : string -> outcome parse_output.

(** A computation that may throw and may change the transforms' state. *)
Definition Eff (A : Type) : Type := W -> outcome A * W.

Definition ret {A} (a : A) : Eff A := fun w => (Return a, w).
Definition throw {A} (e : exn) : Eff A := fun w => (Throw e, w).
Definition bind {A B} (c : Eff A) (k : A -> Eff B) : Eff B :=
  fun w =>
    match c w with
    | (Return a, w') => k a w'
    | (Throw e, w') => (Throw e, w')
    end.
Definition lift {A} (o : outcome A) : Eff A := fun w => (o, w).

Notation "x <- c ;; k" := (bind c (fun x => k))
  (at level 100, c at next level, right associativity).

(** [_.map] with a callback that has effects: in order, stopping at the
    first throw. *)
Fixpoint mapM {A B} (f : A -> Eff B) (l : list A) : Eff (list B) :=
  match l with
  | [] => ret []
  | a :: t => b <- f a ;; bs <- mapM f t ;; ret (b :: bs)
  end.

(** A value of the [keywords] option. *)
Inductive keyword_spec : Type :=
| KNumber (n : Z)
| KFunction (f : jsmatch -> Eff value)
| KOther (v : value).

(** The function [_normalizeKeyword] returns for a number. *)
Definition nth_argument (argnum : Z) : jsmatch -> Eff value :=
  let argumentPosition := argnum - 1 in
  fun m =>
    if Z.of_nat (List.length (arguments m)) >? argumentPosition then
      match array_get (arguments m) argumentPosition with
      | None => throw TypeError
      | Some argument =>
          if typeof_string (node_value argument)
          then ret (node_value argument)
          else ret VUndefined
      end
    else ret VUndefined.

Definition _normalizeKeyword (keyword : keyword_spec) : keyword_spec :=
  match keyword with
  | KNumber n => KFunction (nth_argument n)
  | _ => keyword
  end.

Definition _normalizeKeywords (keywords : gmap string keyword_spec)
    : gmap string keyword_spec :=
  _normalizeKeyword <$> keywords.

(** [this.options] after the constructor. *)
Record options := {
  keywords : gmap string keyword_spec;
  keywordFunctions : list string;
  commentPrefix : option string
}.

(** The options object given to the constructor: a key that is not there
    is [None]; [commentPrefix: undefined] is [Some None]. *)
Record user_options := {
  user_keywords : option (gmap string keyword_spec);
  user_commentPrefix : option (option string)
}.

Definition defaultOptions : user_options :=
  {| user_keywords := Some {[ "_"%string := KNumber 1 ]};
     user_commentPrefix := Some (Some "translators:"%string) |}.

(** [_.extend( {}, XGettext.defaultOptions, options )] *)
Definition extend (defaults given : user_options) : user_options :=
  {| user_keywords :=
       match user_keywords given with
       | Some k => Some k
       | None => user_keywords defaults
       end;
     user_commentPrefix :=
       match user_commentPrefix given with
       | Some p => Some p
       | None => user_commentPrefix defaults
       end |}.

(** [Object.keys] *)
Definition Object_keys (o : gmap string keyword_spec) : list string :=
  (map_to_list o).*1.

(** The constructor. *)
Definition XGettext (given : user_options) : options :=
  let merged := extend defaultOptions given in
  let normalized := _normalizeKeywords (default ∅ (user_keywords merged)) in
  {| keywords := normalized;
     keywordFunctions := Object_keys normalized;
     commentPrefix := default None (user_commentPrefix merged) |}.

(** The [onComment] callback, with the [comments] array it pushes to. *)
Definition onComment (rxCommentMatch : regexp)
    (comments : list translator_comment) (c : raw_comment)
    : list translator_comment :=
  let isTranslatorComment := rx_test rxCommentMatch (rc_text c) in
  if isTranslatorComment then
    comments ++ [ {| tc_value := trim (rx_replace_empty rxCommentMatch (rc_text c));
                     tc_line := rc_startLoc c |} ]
  else comments.

Definition _parseInput (this : options) (input : string) : outcome parsedInput :=
  match commentPrefix this with
  | Some prefix =>
      obind (RegExp ("^\s*" +:+ prefix) "i") (fun rxCommentMatch =>
      obind (parse input) (fun parsed =>
      Return {| comments := fold_left (onComment rxCommentMatch)
                              (parsed_comments parsed) [];
                ast := parsed_ast parsed |}))
  | None =>
      obind (parse input) (fun parsed =>
      Return {| comments := []; ast := parsed_ast parsed |})
  end.

Definition _discoverMatches (this : options) (parsedInput : parsedInput)
    : list jsmatch :=
  fold_left (visit_CallExpression (keywordFunctions this) (comments parsedInput))
    (walk_calls (ast parsedInput)) [].

(** [this.options.keywords[ match.keyword ]( match )]: calling what is not
    a function throws. *)
Definition call_keyword (k : option keyword_spec) (m : jsmatch) : Eff value :=
  match k with
  | Some (KFunction f) => f m
  | _ => throw TypeError
  end.

Definition _transformMatch (this : options) (m : jsmatch) : Eff value :=
  strings <- call_keyword (keywords this !! keyword m) m ;;
  if isPlainObject strings then ret strings
  else
    let strings := as_array strings in
    let strings := List.filter Boolean strings in
    ret (VArray (map (transformed_record m) strings)).

Definition getMatches (this : options) (input : string) : Eff (list value) :=
  parsedInput <- lift (_parseInput this input) ;;
  let matches := _discoverMatches this parsedInput in
  transformedMatches <- mapM (_transformMatch this) matches ;;
  ret (flatten transformedMatches).

(** Successive [getMatches] calls on one engine. *)
Fixpoint getMatches_each (this : options) (inputs : list string)
    (w : W) : list (outcome (list value)) * W :=
  match inputs with
  | [] => ([], w)
  | input :: rest =>
      let '(r, w') := getMatches this input w in
      let '(rs, w'') := getMatches_each this rest w' in
      (r :: rs, w'')
  end.

End Engine.

Arguments ret {W A} a w.
Arguments throw {W A} e w.
Arguments bind {W A B} c k w.
Arguments lift {W A} o w.
Arguments mapM {W A B} f l w.
Arguments KNumber {W} n.
Arguments KFunction {W} f.
Arguments KOther {W} v.
Arguments nth_argument {W} argnum m w.
Arguments _normalizeKeyword {W} keyword.
Arguments _normalizeKeywords {W} keywords.
Arguments keywords {W} o.
Arguments keywordFunctions {W} o.
Arguments commentPrefix {W} o.
Arguments user_keywords {W} u.
Arguments user_commentPrefix {W} u.
Arguments defaultOptions {W}.
Arguments extend {W} defaults given.
Arguments Object_keys {W} o.
Arguments XGettext {W} given : simpl never.
Arguments _parseInput {W} RegExp parse this input.
Arguments _discoverMatches {W} this parsedInput.
Arguments call_keyword {W} k m w.
Arguments _transformMatch {W} this m w.
Arguments getMatches {W} RegExp parse this input w.
Arguments getMatches_each {W} RegExp parse this inputs w.

(** ** Stand-ins for the libraries, to run the engine on examples *)

(** Case folding of the [i] flag on code units below 256: a letter and its
    upper-case form are the same. *)
Definition canonicalize (c : ascii) : N :=
  let n := N_of_ascii c in
  if ((97 <=? n) && (n <=? 122))%N then (n - 32)%N
  else if ((224 <=? n) && (n <=? 254) && negb (n =? 247))%N then (n - 32)%N
  else n.

Fixpoint prefix_ignoring_case (p text : string) : bool :=
  match p, text with
  | EmptyString, _ => true
  | String a p', String b text' =>
      (canonicalize a =? canonicalize b)%N && prefix_ignoring_case p' text'
  | String _ _, EmptyString => false
  end.

(** [^\s*] followed by the literal text [p], matched at the start of
    [text]: the length of the match.  The star is greedy and gives white
    space back when the literal does not follow. *)
Fixpoint spaces_then_literal (p text : string) : option nat :=
  let here := if prefix_ignoring_case p text then Some (String.length p) else None in
  match text with
  | String c rest =>
      if is_whitespace c then
        match spaces_then_literal p rest with
        | Some n => Some (S n)
        | None => here
        end
      else here
  | EmptyString => here
  end.

Definition is_metacharacter (c : ascii) : bool :=
  existsb (Ascii.eqb c) (list_ascii_of_string "\^$.|?*+()[]{}").

(** [new RegExp(source, flags)] on the patterns [_parseInput] builds from a
    prefix without metacharacters.  Every other pattern is outside this
    stand-in, which answers with a [SyntaxError] there. *)
Definition literal_RegExp (source flags : string) : outcome regexp :=
  if String.eqb flags "i" && String.prefix "^\s*" source then
    let p := substring 4 (String.length source - 4) source in
    if existsb is_metacharacter (list_ascii_of_string p) then Throw SyntaxError
    else Return (fun text => option_map (fun n => (0%nat, n)) (spaces_then_literal p text))
  else Throw SyntaxError.

(** A parser that knows the parse of the listed source texts. *)
Fixpoint table_parse (table : list (string * parse_output)) (input : string)
    : outcome parse_output :=
  match table with
  | [] => Throw SyntaxError
  | (source, parsed) :: rest =>
      if String.eqb source input then Return parsed else table_parse rest input
  end.

Definition position (l c : Z) : Position := {| pos_line := l; pos_column := c |}.

Definition location (l1 c1 l2 c2 : Z) : SourceLocation :=
  {| loc_start := position l1 c1; loc_end := position l2 c2 |}.

Definition Program (body : list node) : node := OtherNode "Program" body.

Definition ExpressionStatement (expression : node) : node :=
  OtherNode "ExpressionStatement" [expression].

Definition block_comment (text : string) (start_ end_ : Z) (startLoc endLoc : Position)
    : raw_comment :=
  {| rc_block := true; rc_text := text; rc_start := start_; rc_end := end_;
     rc_startLoc := startLoc; rc_endLoc := endLoc |}.

(** The sources of the test suite (with single-quoted literals) and a few
    more, with the trees and comments acorn gives for them. *)
Definition hello : node := Literal (VString "Hello World!").

Definition src_hello : string := "_( 'Hello World!' );".
Definition ast_hello : parse_output :=
  {| parsed_comments := [];
     parsed_ast := Program [ExpressionStatement
       (CallExpression (Identifier "_") [hello] (location 1 0 1 19))] |}.

Definition src_same_line : string := "_( 'Hello World!' ); /* translators: greeting */".
Definition ast_same_line : parse_output :=
  {| parsed_comments :=
       [block_comment " translators: greeting " 21 48 (position 1 21) (position 1 48)];
     parsed_ast := Program [ExpressionStatement
       (CallExpression (Identifier "_") [hello] (location 1 0 1 19))] |}.

Definition LF : string := String (ascii_of_nat 10) EmptyString.

Definition src_previous_line : string :=
  "/* translators: greeting */" +:+ LF +:+ "_( 'Hello World!' );".
Definition ast_previous_line : parse_output :=
  {| parsed_comments :=
       [block_comment " translators: greeting " 0 27 (position 1 0) (position 1 27)];
     parsed_ast := Program [ExpressionStatement
       (CallExpression (Identifier "_") [hello] (location 2 0 2 19))] |}.

Definition src_second_argument : string := "_( null, 'Hello World!' );".
Definition ast_second_argument : parse_output :=
  {| parsed_comments := [];
     parsed_ast := Program [ExpressionStatement
       (CallExpression (Identifier "_") [Literal VNull; hello] (location 1 0 1 25))] |}.

Definition transpiled_callee : node :=
  MemberExpression (Identifier "transpilerGeneratedName") (Identifier "_") false.

Definition src_sequence : string := "(0, transpilerGeneratedName._)('Hello World!')".
Definition ast_sequence : parse_output :=
  {| parsed_comments := [];
     parsed_ast := Program [ExpressionStatement
       (CallExpression
          (SequenceExpression (Literal (VNumber 0)) [transpiled_callee])
          [hello] (location 1 0 1 46))] |}.

Definition src_nested_sequence : string :=
  "(0, (0, transpilerGeneratedName._))('Hello World!')".
Definition ast_nested_sequence : parse_output :=
  {| parsed_comments := [];
     parsed_ast := Program [ExpressionStatement
       (CallExpression
          (SequenceExpression (Literal (VNumber 0))
             [SequenceExpression (Literal (VNumber 0)) [transpiled_callee]])
          [hello] (location 1 0 1 51))] |}.

Definition src_note : string := "_( 'Hello World!' ); /* note: greeting */".
Definition ast_note : parse_output :=
  {| parsed_comments :=
       [block_comment " note: greeting " 21 41 (position 1 21) (position 1 41)];
     parsed_ast := Program [ExpressionStatement
       (CallExpression (Identifier "_") [hello] (location 1 0 1 19))] |}.

Definition src_empty_literal : string := "_('');".
Definition ast_empty_literal : parse_output :=
  {| parsed_comments := [];
     parsed_ast := Program [ExpressionStatement
       (CallExpression (Identifier "_") [Literal (VString "")] (location 1 0 1 5))] |}.

Definition src_two_comments : string :=
  "/* translators: first */" +:+ LF +:+ "/* translators: second */ _('Hello World!');".
Definition ast_two_comments : parse_output :=
  {| parsed_comments :=
       [block_comment " translators: first " 0 24 (position 1 0) (position 1 24);
        block_comment " translators: second " 25 50 (position 2 0) (position 2 25)];
     parsed_ast := Program [ExpressionStatement
       (CallExpression (Identifier "_") [hello] (location 2 26 2 43))] |}.

Definition src_computed : string := "obj['_']('Hello World!');".
Definition ast_computed : parse_output :=
  {| parsed_comments := [];
     parsed_ast := Program [ExpressionStatement
       (CallExpression
          (MemberExpression (Identifier "obj") (Literal (VString "_")) true)
          [hello] (location 1 0 1 24))] |}.

Definition known_sources : list (string * parse_output) :=
  [ (src_hello, ast_hello); (src_same_line, ast_same_line);
    (src_previous_line, ast_previous_line);
    (src_second_argument, ast_second_argument);
    (src_sequence, ast_sequence); (src_nested_sequence, ast_nested_sequence);
    (src_empty_literal, ast_empty_literal);
    (src_two_comments, ast_two_comments); (src_computed, ast_computed);
    (src_note, ast_note) ].

Definition acorn : string -> outcome parse_output := table_parse known_sources.

(** [new XGettext()] and [new XGettext({ keywords: k })], with transforms
    over a state of type [W]. *)
Definition no_options {W} : user_options W :=
  {| user_keywords := None; user_commentPrefix := None |}.

Definition with_keywords {W} (k : gmap string (keyword_spec W)) : user_options W :=
  {| user_keywords := Some k; user_commentPrefix := None |}.

Definition run {W} (this : options W) (input : string) (w : W)
    : outcome (list value) * W :=
  getMatches literal_RegExp acorn this input w.


(** The records [{ string, line }] and [{ string, line, comment }]. *)
Definition record (s : string) (l : Z) : value :=
  VPlainObject [("string"%string, VString s); ("line"%string, VNumber l)].

Definition record_with_comment (s : string) (l : Z) (c : string) : value :=
  VPlainObject [("string"%string, VString s); ("line"%string, VNumber l);
                ("comment"%string, VString c)].

(** The calls and matches of the examples. *)
Definition call_hello : call_node :=
  {| call_callee := Identifier "_"; call_arguments := [hello];
     call_loc := location 1 0 1 19 |}.

Definition match_hello : jsmatch :=
  {| arguments := [hello]; keyword := "_"; line := 1; comment := None |}.

Definition match_empty_literal : jsmatch :=
  {| arguments := [Literal (VString "")]; keyword := "_"; line := 1; comment := None |}.

Definition match_second_argument : jsmatch :=
  {| arguments := [Literal VNull; hello]; keyword := "_"; line := 1; comment := None |}.

(** [_('a'); _('a');]: two calls on line 1, at columns 0 and 8. *)
Definition call_at_column_0 : call_node :=
  {| call_callee := Identifier "_"; call_arguments := [Literal (VString "a")];
     call_loc := location 1 0 1 6 |}.

Definition call_at_column_8 : call_node :=
  {| call_callee := Identifier "_"; call_arguments := [Literal (VString "a")];
     call_loc := location 1 8 1 14 |}.

(** The regular expression of the default prefix. *)
Definition translators_rx : regexp :=
  fun text => option_map (fun n => (0%nat, n)) (spaces_then_literal "translators:" text).

(** [{ '_': 2 }] *)
Definition second_argument_keywords : gmap string (keyword_spec unit) :=
  {[ "_"%string := KNumber 2 ]}.

(** [{ '_': function( match ) { return { isOkay: true }; } }], of the test
    suite. *)
Definition isOkay : list (string * value) := [("isOkay"%string, VBoolean true)].

Definition object_keywords : gmap string (keyword_spec unit) :=
  {[ "_"%string := KFunction (fun _ => ret (VPlainObject isOkay)) ]}.

(** [{ '_': function( match ) { return new Date( 0 ); } }] *)
Definition a_date : value := VInstance "Date" [].

Definition date_keywords : gmap string (keyword_spec unit) :=
  {[ "_"%string := KFunction (fun _ => ret a_date) ]}.

(** [{ '_': function( match ) { return false; } }] *)
Definition false_keywords : gmap string (keyword_spec unit) :=
  {[ "_"%string := KFunction (fun _ => ret (VBoolean false)) ]}.

(** [{ '_': function( match ) { return [ '', false, 'x' ]; } }] *)
Definition mixed_list_keywords : gmap string (keyword_spec unit) :=
  {[ "_"%string :=
       KFunction (fun _ => ret (VArray [VString ""; VBoolean false; VString "x"])) ]}.

(** [var n = 0;] and
    [{ '_': function( match ) { return n++ === 0 ? 'first' : 'again'; } }]:
    the state is the value of [n]. *)
Definition counting_keywords : gmap string (keyword_spec Z) :=
  {[ "_"%string :=
       KFunction (fun _ n =>
         (Return (VString (if n =? 0 then "first" else "again")), n + 1)) ]}.

(** ** Notions the properties are stated with *)

(** The [keywords] option in force: the one given, else the default. *)
Definition configured {W} (given : user_options W) : gmap string (keyword_spec W) :=
  default ∅ (user_keywords (extend defaultOptions given)).

(** A translator comment that the line test of a call starting on
    [start_line] accepts. *)
Definition qualifies (start_line : Z) (c : translator_comment) : bool :=
  same_or_previous_line start_line (pos_line (tc_line c)).

(** A comment, as the parser reports it, that passes the prefix test and
    the line test. *)
Definition raw_qualifies (rx : regexp) (start_line : Z) (c : raw_comment) : bool :=
  rx_test rx (rc_text c) && same_or_previous_line start_line (pos_line (rc_startLoc c)).

(** What [onComment] pushes for a comment that passes the prefix test: the
    text with the prefix removed and trimmed, and the start position. *)
Definition collected (rx : regexp) (c : raw_comment) : translator_comment :=
  {| tc_value := trim (rx_replace_empty rx (rc_text c)); tc_line := rc_startLoc c |}.

(** [wraps c w]: [w] is [c] wrapped in one or more sequence expressions,
    each having the next one (at the end, [c]) as its last expression. *)
Inductive wraps (c : node) : node -> Prop :=
| wraps_once e es :
    List.last es e = c -> wraps c (SequenceExpression e es)
| wraps_more e es w :
    List.last es e = w -> wraps c w -> wraps c (SequenceExpression e es).

Definition is_sequence (n : node) : bool :=
  match n with SequenceExpression _ _ => true | _ => false end.

(** A transform that neither reads nor changes the state: its outcome
    depends on the match alone. *)
Definition pure_transform {W} (f : jsmatch -> Eff W value) : Prop :=
  exists g : jsmatch -> outcome value, forall m w, f m w = (g m, w).

Definition pure_configuration {W} (this : options W) : Prop :=
  forall name f, keywords this !! name = Some (KFunction f) -> pure_transform f.

(** A list whose elements are all strings. *)
Definition is_string_list (v : value) : bool :=
  match v with
  | VArray l => forallb typeof_string l
  | _ => false
  end.

(** [typeof v === 'object' && v !== null] *)
Definition is_object (v : value) : bool :=
  match v with
  | VArray _ | VPlainObject _ | VInstance _ _ => true
  | _ => false
  end.

(** A structured object in the wide sense: an object that is not a list of
    strings (a string is not an object). *)
Definition structured_object (v : value) : bool :=
  is_object v && negb (typeof_string v) && negb (is_string_list v).

(** ** Notions and examples for the further properties *)

(** An optional element as a list. *)
Definition option_list {A} (o : option A) : list A :=
  match o with
  | Some a => [a]
  | None => []
  end.

(** The comment of a call starting on [start_line]: the value of the last
    collected comment on that line or the line before. *)
Definition comment_of_line (cs : list translator_comment) (start_line : Z)
    : option string :=
  tc_value <$> last (List.filter (qualifies start_line) cs).

(** What an engine whose keywords are all numbers is expected to extract
    from one call: a record when the call's resolved name is a keyword
    configured with [N] and the [N]th argument is a non-empty string
    literal. *)
Definition numeric_record {W} (given : user_options W)
    (cs : list translator_comment) (c : call_node) : option value :=
  match called_name c with
  | None => None
  | Some name =>
      if String.eqb name EmptyString then None
      else
        match configured given !! name with
        | Some (KNumber N) =>
            match call_arguments c !! Z.to_nat (N - 1) with
            | Some (Literal (VString s)) =>
                if String.eqb s EmptyString then None
                else
                  let start_line := pos_line (loc_start (call_loc c)) in
                  Some (transformed_record
                          {| arguments := call_arguments c; keyword := name;
                             line := start_line;
                             comment := comment_of_line cs start_line |}
                          (VString s))
            | _ => None
            end
        | _ => None
        end
  end.

(** All configured keywords are positive numbers. *)
Definition positive_numbers {W} (given : user_options W) : Prop :=
  forall name k, configured given !! name = Some k -> exists N, k = KNumber N /\ 0 < N.

(** [_('a'); _('a');] and [_( _('a') );] with their trees. *)
Definition src_two_calls : string := "_('a'); _('a');".
Definition ast_two_calls : parse_output :=
  {| parsed_comments := [];
     parsed_ast := Program
       [ExpressionStatement
          (CallExpression (Identifier "_") [Literal (VString "a")] (location 1 0 1 6));
        ExpressionStatement
          (CallExpression (Identifier "_") [Literal (VString "a")] (location 1 8 1 14))] |}.

Definition src_nested_calls : string := "_( _('a') );".
Definition ast_nested_calls : parse_output :=
  {| parsed_comments := [];
     parsed_ast := Program
       [ExpressionStatement
          (CallExpression (Identifier "_")
             [CallExpression (Identifier "_") [Literal (VString "a")] (location 1 3 1 9)]
             (location 1 0 1 11))] |}.

Definition src_no_call : string := "var greeting = 'Hello World!';".
Definition ast_no_call : parse_output :=
  {| parsed_comments := [];
     parsed_ast := Program
       [OtherNode "VariableDeclaration"
          [OtherNode "VariableDeclarator" [Identifier "greeting"; hello]]] |}.

(** [var {[_('x')]: a} = obj;]: the call is the computed key of a property
    of an object pattern. *)
Definition src_pattern_key : string := "var {[_('x')]: a} = obj;".
Definition ast_pattern_key : parse_output :=
  {| parsed_comments := [];
     parsed_ast := Program
       [OtherNode "VariableDeclaration"
          [OtherNode "VariableDeclarator"
             [ObjectPattern
                [(CallExpression (Identifier "_") [Literal (VString "x")]
                    (location 1 6 1 12),
                  true, Identifier "a")];
              Identifier "obj"]]] |}.

Definition acorn_more : string -> outcome parse_output :=
  table_parse [ (src_two_calls, ast_two_calls); (src_nested_calls, ast_nested_calls);
                (src_no_call, ast_no_call); (src_hello, ast_hello) ].

(** [{ '_': 0 }], [{ '_': 'first' }] (a value that is neither a number nor
    a function) and
    [{ '_': function( match ) { if ( n++ ) throw 'again'; return 'first'; } }]. *)
Definition zero_keywords : gmap string (keyword_spec unit) :=
  {[ "_"%string := KNumber 0 ]}.

Definition string_keywords : gmap string (keyword_spec unit) :=
  {[ "_"%string := KOther (VString "first") ]}.

Definition throwing_keywords : gmap string (keyword_spec Z) :=
  {[ "_"%string :=
       KFunction (fun _ n =>
         (if n =? 0 then Return (VString "first") else Throw (UserThrow (VString "again")),
          n + 1)) ]}.

(** ** The earlier version of the engine

    The second half of [xgettext.js] is the engine as it was before
    keyword numbers, member and sequence callees, the [line] of a match and
    the plain-object result were added.  Its constructor merges the given
    options into [XGettext.defaultOptions] itself and keeps that object as
    [this.options], so all engines share one options object: the
    constructor is a change of that object, and [getMatches] reads it. *)

Module Legacy.

(** The match [{ arguments, keyword }], with [comment] when one was found. *)
Record jsmatch := {
  arguments : list node;
  keyword : string;
  comment : option string
}.

Definition attach_comment (start_line : Z) (m : jsmatch)
    (translatorComment : translator_comment) : jsmatch :=
  if same_or_previous_line start_line (pos_line (tc_line translatorComment))
  then {| arguments := arguments m; keyword := keyword m;
          comment := Some (tc_value translatorComment) |}
  else m.

(** The [CallExpression] visitor up to [matches.push( match )].  The name
    is [node.callee.name]; [keywordFunctions] is undefined on the default
    options until a constructor has set it, and [indexOf] on undefined
    throws. *)
Definition discover_call (keywordFunctions : option (list string))
    (comments : list translator_comment) (node : call_node)
    : outcome (option jsmatch) :=
  match node_name (call_callee node) with
  | None => Return None
  | Some functionName =>
      if String.eqb functionName EmptyString then Return None
      else
        match keywordFunctions with
        | None => Throw TypeError
        | Some keywordFunctions =>
            if indexOf keywordFunctions functionName =? -1 then Return None
            else
              let match0 := {| arguments := call_arguments node;
                               keyword := functionName;
                               comment := None |} in
              Return (Some (fold_left
                              (attach_comment (pos_line (loc_start (call_loc node))))
                              comments match0))
        end
  end.

Definition visit_CallExpression (keywordFunctions : option (list string))
    (comments : list translator_comment)
    (matches : outcome (list jsmatch)) (node : call_node) : outcome (list jsmatch) :=
  obind matches (fun matches =>
  obind (discover_call keywordFunctions comments node) (fun found =>
  match found with
  | Some m => Return (matches ++ [m])
  | None => Return matches
  end)).

(** The record [{ string: string }] with [comment] added when the match has
    one. *)
Definition transformed_record (m : jsmatch) (s : value) : value :=
  VPlainObject
    ([("string"%string, s)]
     ++ match comment m with
        | Some c => [("comment"%string, VString c)]
        | None => []
        end).

Section Engine.

Variable W : Type.
Variable RegExp : string -> string -> outcome regexp.
Variable parse : string -> outcome parse_output.

Notation "x <- c ;; k" := (bind c (fun x => k))
  (at level 100, c at next level, right associativity).

(** A value of the [keywords] option: there is no normalization, so a
    number is one of the values that cannot be called. *)
Inductive keyword_value : Type :=
| KFunction (f : jsmatch -> Eff W value)
| KOther (v : value).

(** The default transform of [_]. *)
Definition first_argument : jsmatch -> Eff W value :=
  fun m =>
    if Z.of_nat (List.length (arguments m)) >? 0 then
      match array_get (arguments m) 0 with
      | None => throw TypeError
      | Some argument =>
          if typeof_string (node_value argument)
          then ret (node_value argument)
          else ret VUndefined
      end
    else ret VUndefined.

(** The shared options object; [keywordFunctions] is [None] while the
    property is not there. *)
Record options := {
  keywords : gmap string keyword_value;
  commentPrefix : option string;
  keywordFunctions : option (list string)
}.

Record user_options := {
  user_keywords : option (gmap string keyword_value);
  user_commentPrefix : option (option string)
}.

Definition defaultOptions : options :=
  {| keywords := {[ "_"%string := KFunction first_argument ]};
     commentPrefix := Some "translators:"%string;
     keywordFunctions := None |}.

(** [_.extend( XGettext.defaultOptions, options )]: the keys of [options]
    are written into the shared object; nothing is written when [options]
    is undefined. *)
Definition extend (shared : options) (given : option user_options) : options :=
  match given with
  | None => shared
  | Some given =>
      {| keywords := default (keywords shared) (user_keywords given);
         commentPrefix := default (commentPrefix shared) (user_commentPrefix given);
         keywordFunctions := keywordFunctions shared |}
  end.

(** The constructor, as a change of the shared options object:
    [Object.keys( options.keywords )] throws when [options] or its
    [keywords] is undefined, after the merge has been done. *)
Definition XGettext (given : option user_options) (shared : options)
    : outcome unit * options :=
  let merged := extend shared given in
  match given with
  | None => (Throw TypeError, merged)
  | Some given =>
      match user_keywords given with
      | None => (Throw TypeError, merged)
      | Some k =>
          (Return tt,
           {| keywords := keywords merged;
              commentPrefix := commentPrefix merged;
              keywordFunctions := Some (map_to_list k).*1 |})
      end
  end.

Definition _parseInput (this : options) (input : string) : outcome parsedInput :=
  match commentPrefix this with
  | Some prefix =>
      obind (RegExp ("^\s*" +:+ prefix) "i") (fun rxCommentMatch =>
      obind (parse input) (fun parsed =>
      Return {| comments := fold_left (onComment rxCommentMatch)
                              (parsed_comments parsed) [];
                ast := parsed_ast parsed |}))
  | None =>
      obind (parse input) (fun parsed =>
      Return {| comments := []; ast := parsed_ast parsed |})
  end.

Definition _discoverMatches (this : options) (parsedInput : parsedInput)
    : outcome (list jsmatch) :=
  fold_left (visit_CallExpression (keywordFunctions this) (comments parsedInput))
    (walk_calls (ast parsedInput)) (Return []).

Definition call_keyword (k : option keyword_value) (m : jsmatch) : Eff W value :=
  match k with
  | Some (KFunction f) => f m
  | _ => throw TypeError
  end.

Definition _transformMatch (this : options) (m : jsmatch) : Eff W value :=
  strings <- call_keyword (keywords this !! keyword m) m ;;
  let strings := as_array strings in
  let strings := List.filter Boolean strings in
  ret (VArray (map (transformed_record m) strings)).

Definition getMatches (this : options) (input : string) : Eff W (list value) :=
  parsedInput <- lift (_parseInput this input) ;;
  matches <- lift (_discoverMatches this parsedInput) ;;
  transformedMatches <- mapM (_transformMatch this) matches ;;
  ret (flatten transformedMatches).

End Engine.

Arguments KFunction {W} f.
Arguments KOther {W} v.
Arguments first_argument {W} m w.
Arguments keywords {W} o.
Arguments commentPrefix {W} o.
Arguments keywordFunctions {W} o.
Arguments user_keywords {W} u.
Arguments user_commentPrefix {W} u.
Arguments defaultOptions {W}.
Arguments extend {W} shared given.
Arguments XGettext {W} given shared.
Arguments _parseInput {W} RegExp parse this input.
Arguments _discoverMatches {W} this parsedInput.
Arguments call_keyword {W} k m w.
Arguments _transformMatch {W} this m w.
Arguments getMatches {W} RegExp parse this input w.

End Legacy.

(** A match of the current engine as the earlier engine builds it: without
    the line. *)
Definition forget_line (m : jsmatch) : Legacy.jsmatch :=
  {| Legacy.arguments := arguments m; Legacy.keyword := keyword m;
     Legacy.comment := comment m |}.

(** A record without its [line] property. *)
Definition without_line (r : value) : value :=
  match r with
  | VPlainObject props =>
      VPlainObject (List.filter (fun kv => negb (String.eqb (fst kv) "line")) props)
  | _ => r
  end.

(** [new XGettext({ keywords: { '_': f }, commentPrefix: 'note:' })] and
    [new XGettext({ keywords: { '__': f } })] for the earlier engine. *)
Definition legacy_note_options : Legacy.user_options unit :=
  {| Legacy.user_keywords := Some {[ "_"%string := Legacy.KFunction Legacy.first_argument ]};
     Legacy.user_commentPrefix := Some (Some "note:"%string) |}.

Definition legacy_other_options : Legacy.user_options unit :=
  {| Legacy.user_keywords := Some {[ "__"%string := Legacy.KFunction Legacy.first_argument ]};
     Legacy.user_commentPrefix := None |}.

Definition legacy_object_keywords : gmap string (Legacy.keyword_value unit) :=
  {[ "_"%string := Legacy.KFunction (fun _ => ret (VPlainObject isOkay)) ]}.

(** ** The engine as an object

    [this] is an object whose property [options] the constructor sets and
    the methods read.  Here the methods are written with that object
    threaded through them: each takes the object and leaves an object, so
    that a property set on [this] by a method would show in what it
    leaves.  The local arrays [comments] and [matches] are values of the
    method bodies, as in the source. *)

Module OnInstance.

Section Methods.

Variable W : Type.
Variable RegExp : string -> string -> outcome regexp.
Variable parse : string -> outcome parse_output.

(** What a property of the object holds: the options, or a value. *)
Inductive property : Type :=
| POptions (o : options W)
| PValue (v : value).

(** A method body: from the object and the transforms' state to an outcome,
    the object and the state it leaves. *)
Definition Method (A : Type) : Type :=
  gmap string property -> W -> outcome A * gmap string property * W.

Definition mreturn {A} (a : A) : Method A := fun this w => (Return a, this, w).

Definition mbind {A B} (c : Method A) (k : A -> Method B) : Method B :=
  fun this w =>
    match c this w with
    | (Return a, this', w') => k a this' w'
    | (Throw e, this', w') => (Throw e, this', w')
    end.

(** [this.options]; reading a property of undefined throws. *)
Definition this_options : Method (options W) :=
  fun this w =>
    match this !! "options"%string with
    | Some (POptions o) => (Return o, this, w)
    | _ => (Throw TypeError, this, w)
    end.

(** A computation that does not touch the object. *)
Definition run_eff {A} (c : Eff W A) : Method A :=
  fun this w => let '(r, w') := c w in (r, this, w').

Notation "x <- c ;; k" := (mbind c (fun x => k))
  (at level 100, c at next level, right associativity).

Fixpoint mapM {A B} (f : A -> Method B) (l : list A) : Method (list B) :=
  match l with
  | [] => mreturn []
  | a :: t => b <- f a ;; bs <- mapM f t ;; mreturn (b :: bs)
  end.

(** [new XGettext( options )] *)
Definition new_XGettext (given : user_options W) : gmap string property :=
  {[ "options"%string := POptions (XGettext given) ]}.

Definition _parseInput (input : string) : Method parsedInput :=
  options <- this_options ;;
  run_eff (lift (_parseInput RegExp parse options input)).

Definition _discoverMatches (parsedInput : parsedInput) : Method (list jsmatch) :=
  options <- this_options ;;
  mreturn (_discoverMatches options parsedInput).

Definition _transformMatch (m : jsmatch) : Method value :=
  options <- this_options ;;
  run_eff (_transformMatch options m).

Definition getMatches (input : string) : Method (list value) :=
  parsedInput <- _parseInput input ;;
  matches <- _discoverMatches parsedInput ;;
  transformedMatches <- mapM _transformMatch matches ;;
  mreturn (flatten transformedMatches).

(** Successive [getMatches] calls on one object. *)
Fixpoint getMatches_each (inputs : list string) (this : gmap string property) (w : W)
    : list (outcome (list value)) * gmap string property * W :=
  match inputs with
  | [] => ([], this, w)
  | input :: rest =>
      let '(r, this', w') := getMatches input this w in
      let '(rs, this'', w'') := getMatches_each rest this' w' in
      (r :: rs, this'', w'')
  end.

End Methods.

Arguments POptions {W} o.
Arguments PValue {W} v.
Arguments mreturn {W A} a this w.
Arguments mbind {W A B} c k this w.
Arguments this_options {W} this w.
Arguments run_eff {W A} c this w.
Arguments mapM {W A B} f l this w.
Arguments new_XGettext {W} given.
Arguments _parseInput {W} RegExp parse input this w.
Arguments _discoverMatches {W} parsedInput this w.
Arguments _transformMatch {W} m this w.
Arguments getMatches {W} RegExp parse input this w.
Arguments getMatches_each {W} RegExp parse inputs this w.

End OnInstance.

(** The transforms of an engine as functions of the match alone: [views]
    gives, for a keyword name, what calling the value stored under it
    returns or throws; the call changes no state. *)
Definition pure_views {W} (this : options W)
    (views : string -> jsmatch -> outcome value) : Prop :=
  forall name m w, call_keyword (keywords this !! name) m w = (views name m, w).

(** The records of one match, from the result of its transform: a plain
    object stands for itself; the elements of a list, or a value that is
    not a list, give a record each unless falsy. *)
Definition records_of (views : string -> jsmatch -> outcome value) (m : jsmatch)
    : outcome (list value) :=
  obind (views (keyword m) m) (fun result =>
    Return
      match result with
      | VPlainObject _ => [result]
      | VArray strings => map (transformed_record m) (List.filter Boolean strings)
      | _ => if Boolean result then [transformed_record m result] else []
      end).

Fixpoint all_records (views : string -> jsmatch -> outcome value)
    (matches : list jsmatch) : outcome (list value) :=
  match matches with
  | [] => Return []
  | m :: rest =>
      obind (records_of views m) (fun records =>
      obind (all_records views rest) (fun others =>
      Return (records ++ others)))
  end.

(** The extraction as a function of the configuration and the source
    text: parse, discover, and put the records of the matches one after
    the other; the first error is the outcome. *)
Definition extract {W} (RegExp : string -> string -> outcome regexp)
    (parse : string -> outcome parse_output)
    (views : string -> jsmatch -> outcome value)
    (this : options W) (input : string) : outcome (list value) :=
  obind (_parseInput RegExp parse this input) (fun parsedInput =>
  all_records views (_discoverMatches this parsedInput)).

(** The transforms of an engine whose transforms have no state to use. *)
Definition views_of (this : options unit) : string -> jsmatch -> outcome value :=
  fun name m => fst (call_keyword (keywords this !! name) m tt).

(** ** Lemmas on the building blocks *)

Lemma last_map {A B} (f : A -> B) (l : list A) (d : A) :
  List.last (map f l) (f d) = f (List.last l d).
Proof.
  induction l as [|y t IH]; [reflexivity|].
  destruct t as [|z t']; [reflexivity|].
  exact IH.
Qed.

Lemma resolve_callee_step (e : node) (es : list node) :
  resolve_callee (SequenceExpression e es) = resolve_callee (List.last es e).
Proof. simpl. apply last_map. Qed.

Lemma resolve_callee_not_sequence (c : node) :
  is_sequence c = false -> resolve_callee c = c.
Proof. destruct c; simpl; congruence. Qed.

Lemma wraps_resolve (c w : node) :
  wraps c w -> resolve_callee w = resolve_callee c.
Proof.
  induction 1 as [e es Hlast | e es w Hlast Hw IH];
    rewrite resolve_callee_step, Hlast; [reflexivity | exact IH].
Qed.

Lemma indexOf_from_absent (l : list string) (x : string) (i : Z) :
  x ∉ l -> indexOf_from l x i = -1.
Proof.
  revert i. induction l as [|y t IH]; intros i Hx; simpl; [reflexivity|].
  destruct (String.eqb_spec y x) as [->|Hne].
  - exfalso. apply Hx. left.
  - apply IH. intros Hin. apply Hx. by right.
Qed.

Lemma indexOf_from_present (l : list string) (x : string) (i : Z) :
  x ∈ l -> i <= indexOf_from l x i.
Proof.
  revert i. induction l as [|y t IH]; intros i Hx; simpl.
  - by apply elem_of_nil in Hx.
  - destruct (String.eqb_spec y x) as [->|Hne]; [lia|].
    apply elem_of_cons in Hx as [->|Hx]; [done|].
    specialize (IH (i + 1) Hx). lia.
Qed.

Lemma indexOf_absent_iff (l : list string) (x : string) :
  (indexOf l x =? -1) = true <-> x ∉ l.
Proof.
  unfold indexOf. rewrite Z.eqb_eq. split.
  - intros Heq Hin. pose proof (indexOf_from_present l x 0 Hin). lia.
  - apply indexOf_from_absent.
Qed.

(** The last element a boolean test accepts, by position. *)
Lemma filter_none {A} (P : A -> bool) (l : list A) :
  Forall (fun x => P x = false) l -> List.filter P l = [].
Proof.
  induction 1 as [|x t Hx _ IH]; simpl; [reflexivity|].
  rewrite Hx. exact IH.
Qed.

Lemma last_filter_split {A} (P : A -> bool) (l : list A) (c : A) :
  last (List.filter P l) = Some c <->
  exists before after,
    l = before ++ c :: after /\ P c = true /\ Forall (fun x => P x = false) after.
Proof.
  split.
  - induction l as [|x t IH] using rev_ind; [discriminate|].
    rewrite List.filter_app. simpl. destruct (P x) eqn:Hx.
    + rewrite last_snoc. intros [= <-]. exists t, []. auto.
    + rewrite app_nil_r. intros Hlast.
      destruct (IH Hlast) as (before & after & -> & Hc & Hafter).
      exists before, (after ++ [x]). split; [by rewrite <- app_assoc|].
      split; [done|]. apply Forall_app. auto.
  - intros (before & after & -> & Hc & Hafter).
    rewrite List.filter_app. simpl. rewrite Hc, (filter_none P after Hafter).
    apply last_snoc.
Qed.

Lemma last_filter_none {A} (P : A -> bool) (l : list A) :
  last (List.filter P l) = None <-> Forall (fun x => P x = false) l.
Proof.
  rewrite last_None. split; [|apply filter_none].
  induction l as [|x t IH]; simpl; [constructor|].
  destruct (P x) eqn:Hx; [discriminate|]. auto.
Qed.

Lemma last_of_map {A B} (f : A -> B) (l : list A) :
  last (map f l) = f <$> last l.
Proof.
  induction l as [|x t _] using rev_ind; [reflexivity|].
  rewrite map_app. simpl. by rewrite !last_snoc.
Qed.

(** The [_.each] over the comments keeps the match's other fields and
    leaves in [comment] the value of the last comment the line test
    accepts. *)
Lemma fold_attach_fields (L : Z) (cs : list translator_comment) (m : jsmatch) :
  let m' := fold_left (attach_comment L) cs m in
  arguments m' = arguments m /\ keyword m' = keyword m /\ line m' = line m.
Proof.
  revert m. induction cs as [|c t IH]; intros m; simpl; [auto|].
  destruct (IH (attach_comment L m c)) as (-> & -> & ->).
  unfold attach_comment. destruct same_or_previous_line; auto.
Qed.

Lemma fold_attach_comment (L : Z) (cs : list translator_comment) (m : jsmatch) :
  comment (fold_left (attach_comment L) cs m) =
  match last (List.filter (qualifies L) cs) with
  | Some c => Some (tc_value c)
  | None => comment m
  end.
Proof.
  induction cs as [|c t IH] using rev_ind; [reflexivity|].
  rewrite fold_left_app, List.filter_app. simpl.
  unfold attach_comment at 1. unfold qualifies at 2.
  destruct (same_or_previous_line L (pos_line (tc_line c))).
  - by rewrite last_snoc.
  - by rewrite app_nil_r.
Qed.

(** The comments [_parseInput] collects: those the prefix test accepts, in
    order. *)
Lemma onComment_fold (rx : regexp) (raws : list raw_comment)
    (acc : list translator_comment) :
  fold_left (onComment rx) raws acc =
  acc ++ map (collected rx) (List.filter (fun c => rx_test rx (rc_text c)) raws).
Proof.
  revert acc. induction raws as [|c t IH]; intros acc; simpl.
  - by rewrite app_nil_r.
  - rewrite IH. unfold onComment.
    destruct (rx_test rx (rc_text c)); [|reflexivity].
    by rewrite <- app_assoc.
Qed.

Lemma filter_qualifies_collected (rx : regexp) (L : Z) (raws : list raw_comment) :
  List.filter (qualifies L)
    (map (collected rx) (List.filter (fun c => rx_test rx (rc_text c)) raws))
  = map (collected rx) (List.filter (raw_qualifies rx L) raws).
Proof.
  induction raws as [|c t IH]; [reflexivity|].
  cbn [List.filter].
  assert (raw_qualifies rx L c
          = rx_test rx (rc_text c) && qualifies L (collected rx c)) as -> by reflexivity.
  destruct (rx_test rx (rc_text c)); cbn [andb map List.filter]; [|exact IH].
  destruct (qualifies L (collected rx c)); cbn [map]; by rewrite IH.
Qed.

(** What the visitor does with one call. *)
Lemma discover_call_inv (kws : list string) (cs : list translator_comment)
    (node : call_node) (m : jsmatch) :
  discover_call kws cs node = Some m ->
  called_name node = Some (keyword m) /\ keyword m <> EmptyString /\
  keyword m ∈ kws /\
  arguments m = call_arguments node /\
  line m = pos_line (loc_start (call_loc node)) /\
  comment m = tc_value <$> last (List.filter (qualifies (line m)) cs).
Proof.
  unfold discover_call.
  destruct (called_name node) as [name|]; [|discriminate].
  destruct (String.eqb_spec name EmptyString) as [|Hname]; [discriminate|].
  destruct (indexOf kws name =? -1) eqn:Hidx; [discriminate|].
  intros [= <-].
  set (L := pos_line (loc_start (call_loc node))).
  set (m0 := Build_jsmatch _ _ _ _).
  destruct (fold_attach_fields L cs m0) as (-> & -> & ->).
  rewrite fold_attach_comment. simpl.
  repeat split; try done.
  destruct (decide (name ∈ kws)) as [|Hnot]; [done|].
  apply indexOf_absent_iff in Hnot. congruence.
Qed.

Lemma discover_call_found (kws : list string) (cs : list translator_comment)
    (node : call_node) (name : string) :
  called_name node = Some name -> name <> EmptyString -> name ∈ kws ->
  discover_call kws cs node =
  Some {| arguments := call_arguments node; keyword := name;
          line := pos_line (loc_start (call_loc node));
          comment := tc_value <$>
            last (List.filter (qualifies (pos_line (loc_start (call_loc node)))) cs) |}.
Proof.
  intros Hname Hne Hin. unfold discover_call. rewrite Hname.
  destruct (String.eqb_spec name EmptyString) as [|_]; [done|].
  destruct (indexOf kws name =? -1) eqn:Hidx.
  { apply indexOf_absent_iff in Hidx. done. }
  f_equal.
  set (L := pos_line (loc_start (call_loc node))).
  set (m0 := Build_jsmatch _ _ _ _).
  pose proof (fold_attach_fields L cs m0) as (Ha & Hk & Hl).
  pose proof (fold_attach_comment L cs m0) as Hc.
  destruct (fold_left (attach_comment L) cs m0) as [a k l c]. simpl in *.
  subst a k l. f_equal. rewrite Hc. by destruct (last _).
Qed.

Lemma discover_call_skipped (kws : list string) (cs : list translator_comment)
    (node : call_node) :
  (forall name, called_name node = Some name -> name ∉ kws) ->
  discover_call kws cs node = None.
Proof.
  intros Hskip. unfold discover_call.
  destruct (called_name node) as [name|]; [|reflexivity].
  destruct (String.eqb name EmptyString); [reflexivity|].
  destruct (indexOf kws name =? -1) eqn:Hidx; [reflexivity|].
  exfalso. specialize (Hskip name eq_refl).
  apply indexOf_absent_iff in Hskip. congruence.
Qed.

(** The falsy values. *)
Lemma Boolean_falsy (x : value) :
  Boolean x = false <-> x ∈ [VUndefined; VNull; VBoolean false; VNumber 0; VString ""].
Proof.
  split.
  - destruct x as [ | | [] | n | s | | | ]; simpl; try discriminate; intros Hx.
    + left.
    + right. left.
    + do 2 right. left.
    + apply negb_false_iff, Z.eqb_eq in Hx as ->. do 3 right. left.
    + apply negb_false_iff, String.eqb_eq in Hx as ->. do 4 right. left.
  - intros Hx. repeat (apply elem_of_cons in Hx as [-> | Hx]; [reflexivity|]).
    by apply elem_of_nil in Hx.
Qed.

Lemma visit_fold (kws : list string) (cs : list translator_comment)
    (calls : list call_node) (matches : list jsmatch) :
  fold_left (visit_CallExpression kws cs) calls matches
  = matches ++ omap (discover_call kws cs) calls.
Proof.
  revert matches. induction calls as [|c t IH]; intros matches; simpl.
  - by rewrite app_nil_r.
  - rewrite IH. unfold visit_CallExpression.
    destruct (discover_call kws cs c); [|reflexivity].
    by rewrite <- app_assoc.
Qed.

Lemma omap_skipped {A B} (f : A -> option B) (l : list A) :
  (forall x, x ∈ l -> f x = None) -> omap f l = [].
Proof.
  induction l as [|x t IH]; intros Hnone; simpl; [reflexivity|].
  rewrite (Hnone x) by left. apply IH. intros y Hy. apply Hnone. by right.
Qed.

Lemma flatten_app (l1 l2 : list value) :
  flatten (l1 ++ l2) = flatten l1 ++ flatten l2.
Proof. unfold flatten. apply flat_map_app. Qed.

Section EngineLemmas.

Context {W : Type}.
Variable RegExp : string -> string -> outcome regexp.
Variable parse : string -> outcome parse_output.

Lemma discoverMatches_omap (this : options W) (pi : parsedInput) :
  _discoverMatches this pi
  = omap (discover_call (keywordFunctions this) (comments pi)) (walk_calls (ast pi)).
Proof. unfold _discoverMatches. by rewrite visit_fold. Qed.

(** The constructor's table and its list of names. *)
Lemma XGettext_keywords (given : user_options W) (name : string) :
  keywords (XGettext given) !! name = _normalizeKeyword <$> configured given !! name.
Proof. unfold XGettext, _normalizeKeywords, configured. simpl. apply lookup_fmap. Qed.

Lemma XGettext_keywordFunctions (given : user_options W) (name : string) :
  name ∈ keywordFunctions (XGettext given) <-> is_Some (configured given !! name).
Proof.
  unfold XGettext, Object_keys, _normalizeKeywords, configured. simpl.
  rewrite list_elem_of_fmap. split.
  - intros ([k v] & -> & Hin). apply elem_of_map_to_list in Hin.
    rewrite lookup_fmap in Hin. simpl in *.
    destruct (_ !! k); [eauto | discriminate].
  - intros [v Hv]. exists (name, _normalizeKeyword v). split; [done|].
    apply elem_of_map_to_list. by rewrite lookup_fmap, Hv.
Qed.

(** Every match is for a registered keyword. *)
Lemma discovered_keyword_registered (given : user_options W) (pi : parsedInput)
    (m : jsmatch) :
  m ∈ _discoverMatches (XGettext given) pi ->
  is_Some (keywords (XGettext given) !! keyword m).
Proof.
  rewrite discoverMatches_omap, list_elem_of_omap.
  intros (c & _ & Hc). apply discover_call_inv in Hc as (_ & _ & Hin & _).
  apply XGettext_keywordFunctions in Hin as [v Hv].
  rewrite XGettext_keywords, Hv. by eexists.
Qed.

Lemma mapM_app {A B} (f : A -> Eff W B) (l1 l2 : list A) (w : W) :
  mapM f (l1 ++ l2) w =
  match mapM f l1 w with
  | (Return bs1, w1) =>
      match mapM f l2 w1 with
      | (Return bs2, w2) => (Return (bs1 ++ bs2), w2)
      | (Throw e, w2) => (Throw e, w2)
      end
  | (Throw e, w1) => (Throw e, w1)
  end.
Proof.
  revert w. induction l1 as [|a t IH]; intros w; simpl.
  - unfold ret. by destruct (mapM f l2 w) as [[bs|e] w'].
  - unfold bind, ret. destruct (f a w) as [[b|e] w1]; [|reflexivity].
    rewrite IH.
    destruct (mapM f t w1) as [[bs1|e] w2]; [|reflexivity].
    destruct (mapM f l2 w2) as [[bs2|e] w3]; reflexivity.
Qed.

(** [_transformMatch] after the transform has returned. *)
Lemma transformMatch_returned (this : options W) (m : jsmatch) (w w' : W) (v : value) :
  call_keyword (keywords this !! keyword m) m w = (Return v, w') ->
  _transformMatch this m w =
  (Return (if isPlainObject v then v
           else VArray (map (transformed_record m) (List.filter Boolean (as_array v)))),
   w').
Proof.
  intros Hcall. unfold _transformMatch, bind. rewrite Hcall.
  by destruct (isPlainObject v).
Qed.

Lemma transformMatch_thrown (this : options W) (m : jsmatch) (w w' : W) (e : exn) :
  call_keyword (keywords this !! keyword m) m w = (Throw e, w') ->
  _transformMatch this m w = (Throw e, w').
Proof. intros Hcall. unfold _transformMatch, bind. by rewrite Hcall. Qed.

Lemma getMatches_parsed (this : options W) (input : string) (pi : parsedInput) (w : W) :
  _parseInput RegExp parse this input = Return pi ->
  getMatches RegExp parse this input w =
  match mapM (_transformMatch this) (_discoverMatches this pi) w with
  | (Return outs, w') => (Return (flatten outs), w')
  | (Throw e, w') => (Throw e, w')
  end.
Proof.
  intros Hparse. unfold getMatches, bind, lift. rewrite Hparse.
  by destruct (mapM _ _ w) as [[outs|e] w'].
Qed.

Lemma getMatches_parse_error (this : options W) (input : string) (e : exn) (w : W) :
  _parseInput RegExp parse this input = Throw e ->
  getMatches RegExp parse this input w = (Throw e, w).
Proof. intros Hparse. unfold getMatches, bind, lift. by rewrite Hparse. Qed.

(** The transform of a numeric keyword. *)
Lemma nth_argument_literal (N : Z) (m : jsmatch) (s : string) (w : W) :
  0 < N ->
  arguments m !! Z.to_nat (N - 1) = Some (Literal (VString s)) ->
  nth_argument N m w = (Return (VString s), w).
Proof.
  intros HN Harg. unfold nth_argument.
  pose proof (lookup_lt_Some _ _ _ Harg) as Hlt.
  destruct (Z.gtb_spec (Z.of_nat (List.length (arguments m))) (N - 1)) as [_|Hle]; [|lia].
  unfold array_get. destruct (Z.ltb_spec (N - 1) 0); [lia|].
  by rewrite Harg.
Qed.

Lemma nth_argument_other (N : Z) (m : jsmatch) (w : W) :
  0 < N ->
  (forall s, arguments m !! Z.to_nat (N - 1) <> Some (Literal (VString s))) ->
  nth_argument N m w = (Return VUndefined, w).
Proof.
  intros HN Harg. unfold nth_argument.
  destruct (Z.gtb_spec (Z.of_nat (List.length (arguments m))) (N - 1)); [|reflexivity].
  unfold array_get. destruct (Z.ltb_spec (N - 1) 0); [lia|].
  destruct (arguments m !! Z.to_nat (N - 1)) as [argument|] eqn:Hlookup.
  - destruct argument as [ | v | | | | | | | ]; try reflexivity.
    destruct v; try reflexivity. by destruct (Harg s).
  - apply lookup_ge_None in Hlookup. lia.
Qed.

Lemma nth_argument_pure (N : Z) : pure_transform (W := W) (nth_argument N).
Proof.
  exists (fun m => fst (nth_argument (W := unit) N m tt)).
  intros m w. unfold nth_argument.
  destruct (_ >? _); [|reflexivity].
  destruct (array_get _ _) as [argument|]; [|reflexivity].
  by destruct (typeof_string _).
Qed.

(** With pure transforms nothing depends on the state or changes it. *)
Lemma mapM_stateless {A B} (f : A -> Eff W B) (l : list A) :
  (forall a w1 w2, f a w1 = (fst (f a w2), w1)) ->
  forall w1 w2, mapM f l w1 = (fst (mapM f l w2), w1).
Proof.
  intros Hf. induction l as [|a t IH]; intros w1 w2; simpl; [reflexivity|].
  unfold bind, ret. rewrite (Hf a w1 w2).
  destruct (f a w2) as [[b|e] w2']; simpl; [|reflexivity].
  rewrite (IH w1 w2').
  destruct (mapM f t w2') as [[bs|e] w2'']; reflexivity.
Qed.

Lemma transformMatch_stateless (this : options W) (m : jsmatch) :
  pure_configuration this ->
  forall w1 w2, _transformMatch this m w1 = (fst (_transformMatch this m w2), w1).
Proof.
  intros Hpure w1 w2. unfold _transformMatch, bind, call_keyword.
  destruct (keywords this !! keyword m) as [[n|f|v]|] eqn:Hk; try reflexivity.
  destruct (Hpure _ f Hk) as [g Hg]. rewrite !Hg.
  destruct (g m) as [strings|e]; [|reflexivity].
  by destruct (isPlainObject strings).
Qed.

Lemma getMatches_stateless (this : options W) (input : string) :
  pure_configuration this ->
  forall w1 w2,
    getMatches RegExp parse this input w1
    = (fst (getMatches RegExp parse this input w2), w1).
Proof.
  intros Hpure w1 w2. unfold getMatches, bind, lift.
  destruct (_parseInput RegExp parse this input) as [pi|e]; [|reflexivity].
  rewrite (mapM_stateless (_transformMatch this) _
             (fun m => transformMatch_stateless this m Hpure) w1 w2).
  by destruct (mapM _ _ w2) as [[outs|e] w2'].
Qed.

Lemma getMatches_each_stateless (this : options W) (inputs : list string) (w : W) :
  pure_configuration this ->
  snd (getMatches_each RegExp parse this inputs w) = w.
Proof.
  intros Hpure. induction inputs as [|input rest IH]; [reflexivity|].
  simpl. rewrite (getMatches_stateless this input Hpure w w).
  destruct (getMatches_each RegExp parse this rest w) as [rs w'] eqn:Hrest.
  simpl in *. exact IH.
Qed.

(** With transforms that are functions of the match, the methods compute
    the extraction and change nothing. *)
Lemma transformMatch_views (this : options W)
    (views : string -> jsmatch -> outcome value) (m : jsmatch) (w : W) :
  pure_views this views ->
  _transformMatch this m w
  = (obind (views (keyword m) m) (fun strings =>
       Return (if isPlainObject strings then strings
               else VArray (map (transformed_record m)
                              (List.filter Boolean (as_array strings))))), w).
Proof.
  intros Hviews. unfold _transformMatch, bind. rewrite Hviews.
  destruct (views (keyword m) m) as [strings|e]; [|reflexivity].
  simpl. by destruct (isPlainObject strings).
Qed.

Lemma mapM_views (this : options W) (views : string -> jsmatch -> outcome value)
    (matches : list jsmatch) (w : W) :
  pure_views this views ->
  exists r,
    mapM (_transformMatch this) matches w = (r, w) /\
    obind r (fun outs => Return (flatten outs)) = all_records views matches.
Proof.
  intros Hviews. induction matches as [|m rest (r & IHrun & IHrecords)].
  - by exists (Return []).
  - cbn [mapM all_records]. unfold bind, ret, records_of.
    rewrite (transformMatch_views this views m w Hviews), IHrun, <- IHrecords.
    destruct (views (keyword m) m) as [strings|e]; simpl; [|by exists (Throw e)].
    destruct r as [outs|e]; simpl.
    + eexists. split; [reflexivity|]. simpl. f_equal. f_equal.
      destruct strings as [ | | b | n | s | l | o | c o ]; simpl;
        rewrite ?app_nil_r; try reflexivity; by repeat case_match.
    + by exists (Throw e).
Qed.

Lemma getMatches_views (this : options W) (views : string -> jsmatch -> outcome value)
    (input : string) (w : W) :
  pure_views this views ->
  getMatches RegExp parse this input w = (extract RegExp parse views this input, w).
Proof.
  intros Hviews. unfold getMatches, extract, bind, lift.
  destruct (_parseInput RegExp parse this input) as [pi|e]; [|reflexivity].
  cbn [obind].
  destruct (mapM_views this views (_discoverMatches this pi) w Hviews)
    as (r & -> & <-).
  by destruct r.
Qed.

(** The methods on the object are the functions of its options. *)
Lemma mapM_on_instance (this : gmap string (OnInstance.property W)) (o : options W)
    (matches : list jsmatch) (w : W) :
  this !! "options"%string = Some (OnInstance.POptions o) ->
  OnInstance.mapM OnInstance._transformMatch matches this w
  = (fst (mapM (_transformMatch o) matches w), this,
     snd (mapM (_transformMatch o) matches w)).
Proof.
  intros Hoptions. revert w. induction matches as [|m rest IH]; intros w.
  - reflexivity.
  - cbn [OnInstance.mapM mapM].
    unfold OnInstance.mbind, OnInstance._transformMatch, OnInstance.mbind,
      OnInstance.this_options, OnInstance.run_eff, OnInstance.mreturn, bind, ret.
    rewrite Hoptions.
    destruct (_transformMatch o m w) as [[b|e] w1]; [|reflexivity].
    rewrite IH. by destruct (mapM (_transformMatch o) rest w1) as [[bs|e] w2].
Qed.

Lemma getMatches_on_instance (this : gmap string (OnInstance.property W))
    (o : options W) (input : string) (w : W) :
  this !! "options"%string = Some (OnInstance.POptions o) ->
  OnInstance.getMatches RegExp parse input this w
  = (fst (getMatches RegExp parse o input w), this,
     snd (getMatches RegExp parse o input w)).
Proof.
  intros Hoptions.
  unfold OnInstance.getMatches, OnInstance.mbind at 1, OnInstance._parseInput,
    OnInstance.mbind at 1, OnInstance.this_options, OnInstance.run_eff.
  unfold getMatches, bind, lift. rewrite Hoptions.
  destruct (_parseInput RegExp parse o input) as [pi|e]; [|reflexivity].
  unfold OnInstance.mbind at 1, OnInstance._discoverMatches, OnInstance.mbind at 1,
    OnInstance.this_options, OnInstance.mreturn.
  rewrite Hoptions. unfold OnInstance.mbind.
  rewrite (mapM_on_instance this o _ w Hoptions).
  by destruct (mapM (_transformMatch o) (_discoverMatches o pi) w) as [[outs|e] w'].
Qed.

End EngineLemmas.

(** ** The cases of the test suite *)

Example test_translatable_string :
  run (XGettext no_options) src_hello tt = (Return [record "Hello World!" 1], tt).
Proof. reflexivity. Qed.

Example test_comment_on_same_line :
  run (XGettext no_options) src_same_line tt
  = (Return [record_with_comment "Hello World!" 1 "greeting"], tt).
Proof. reflexivity. Qed.

Example test_comment_on_previous_line :
  run (XGettext no_options) src_previous_line tt
  = (Return [record_with_comment "Hello World!" 2 "greeting"], tt).
Proof. reflexivity. Qed.

Example test_custom_comment_prefix :
  run (XGettext {| user_keywords := None;
                   user_commentPrefix := Some (Some "note:"%string) |})
    src_note tt
  = (Return [record_with_comment "Hello World!" 1 "greeting"], tt).
Proof. reflexivity. Qed.

Example test_comments_disabled :
  run (XGettext {| user_keywords := None; user_commentPrefix := Some None |})
    src_same_line tt
  = (Return [record "Hello World!" 1], tt).
Proof. reflexivity. Qed.

Example test_argument_position :
  run (XGettext (with_keywords second_argument_keywords)) src_second_argument tt
  = (Return [record "Hello World!" 1], tt).
Proof. reflexivity. Qed.

Example test_sequence_expression :
  run (XGettext no_options) src_sequence tt = (Return [record "Hello World!" 1], tt).
Proof. reflexivity. Qed.

Example test_recursive_sequence_expression :
  run (XGettext no_options) src_nested_sequence tt
  = (Return [record "Hello World!" 1], tt).
Proof. reflexivity. Qed.

Example test_object_result :
  run (XGettext (with_keywords object_keywords)) src_hello tt
  = (Return [VPlainObject isOkay], tt).
Proof. reflexivity. Qed.

Example test_computed_member :
  run (XGettext no_options) src_computed tt = (Return [], tt).
Proof. reflexivity. Qed.

Example test_syntax_error :
  run (XGettext no_options) "_(" tt = (Throw SyntaxError, tt).
Proof. reflexivity. Qed.

Example prefix_test_ignores_case_and_leading_space :
  onComment translators_rx []
    (block_comment "  TRANSLATORS:  the greeting  " 0 34 (position 1 0) (position 1 34))
  = [ {| tc_value := "the greeting"; tc_line := position 1 0 |} ].
Proof. reflexivity. Qed.

Example prefix_test_is_anchored :
  onComment translators_rx []
    (block_comment " note for translators: greeting " 0 36 (position 1 0) (position 1 36))
  = [].
Proof. reflexivity. Qed.

Example call_in_pattern_key_not_visited :
  getMatches literal_RegExp (table_parse [(src_pattern_key, ast_pattern_key)])
    (XGettext no_options) src_pattern_key tt
  = (Return [], tt).
Proof. reflexivity. Qed.

(** ** The properties of the specification *)

Section Properties.

Context {W : Type}.
Variable RegExp : string -> string -> outcome regexp.
Variable parse : string -> outcome parse_output.

(** C1 (amended).  When the source parses, the tree walk visits exactly one
    call whose resolved name is a registered keyword, that keyword is
    configured with the number 1 and the call's first argument is a
    string literal that is not empty, then [getMatches] returns exactly
    one record: its [string] is the literal's value and its [line] is the
    line the call starts on. *)
Theorem single_keyword_call_extracted (given : user_options W) (input : string)
    (pi : parsedInput) (before after : list call_node) (c : call_node)
    (name s : string) (rest : list node) (w : W) :
  _parseInput RegExp parse (XGettext given) input = Return pi ->
  walk_calls (ast pi) = before ++ c :: after ->
  called_name c = Some name -> name <> EmptyString ->
  configured given !! name = Some (KNumber 1) ->
  call_arguments c = Literal (VString s) :: rest ->
  s <> EmptyString ->
  (forall c' n, c' ∈ before ++ after ->
                called_name c' = Some n -> configured given !! n = None) ->
  exists cmt,
    getMatches RegExp parse (XGettext given) input w =
    (Return [transformed_record
               {| arguments := call_arguments c; keyword := name;
                  line := pos_line (loc_start (call_loc c)); comment := cmt |}
               (VString s)], w).
Proof.
  intros Hparse Hwalk Hname Hne Hcfg Hargs Hs Hothers.
  assert (Hskip : forall c', c' ∈ before ++ after ->
            discover_call (keywordFunctions (XGettext given)) (comments pi) c' = None).
  { intros c' Hc'. apply discover_call_skipped. intros n Hn Hin.
    apply XGettext_keywordFunctions in Hin as [v Hv].
    rewrite (Hothers c' n Hc' Hn) in Hv. discriminate. }
  assert (Hreg : name ∈ keywordFunctions (XGettext given)).
  { apply XGettext_keywordFunctions. rewrite Hcfg. by eexists. }
  rewrite (getMatches_parsed RegExp parse _ _ pi) by exact Hparse.
  rewrite discoverMatches_omap, Hwalk, omap_app. simpl.
  rewrite (discover_call_found _ _ c name Hname Hne Hreg).
  rewrite !omap_skipped.
  2:{ intros x Hx. apply Hskip, elem_of_app. by right. }
  2:{ intros x Hx. apply Hskip, elem_of_app. by left. }
  eexists. simpl. unfold bind at 1.
  erewrite transformMatch_returned.
  2:{ cbn [keyword]. rewrite XGettext_keywords, Hcfg. simpl.
      apply nth_argument_literal; [lia|]. simpl. by rewrite Hargs. }
  simpl. destruct (String.eqb_spec s EmptyString) as [|_]; [done|].
  reflexivity.
Qed.

(** C2 (amended).  For a keyword configured with a positive integer [N]
    and a match for it: when the [N]th argument exists and is a string
    literal, the synthesized transform returns the literal's value, and
    the match yields one record when that value is not empty and none
    when it is empty; otherwise the transform returns undefined and the
    match yields no record. *)
Theorem numeric_keyword_transform (this : options W) (N : Z) (m : jsmatch) (w : W) :
  0 < N ->
  keywords this !! keyword m = Some (_normalizeKeyword (KNumber N)) ->
  (forall s, arguments m !! Z.to_nat (N - 1) = Some (Literal (VString s)) ->
     nth_argument N m w = (Return (VString s), w) /\
     _transformMatch this m w =
     (Return (VArray (if String.eqb s EmptyString then []
                      else [transformed_record m (VString s)])), w)) /\
  ((forall s, arguments m !! Z.to_nat (N - 1) <> Some (Literal (VString s))) ->
     nth_argument N m w = (Return VUndefined, w) /\
     _transformMatch this m w = (Return (VArray []), w)).
Proof.
  intros HN Hkw. split.
  - intros s Harg.
    pose proof (nth_argument_literal N m s w HN Harg) as Hnth.
    split; [exact Hnth|].
    erewrite transformMatch_returned by (rewrite Hkw; exact Hnth).
    simpl. by destruct (String.eqb s EmptyString).
  - intros Harg.
    pose proof (nth_argument_other N m w HN Harg) as Hnth.
    split; [exact Hnth|].
    by erewrite transformMatch_returned by (rewrite Hkw; exact Hnth).
Qed.

(** C4.  A call whose callee is wrapped in one or more nested sequence
    expressions resolves to the wrapped callee (the last expression of
    the innermost sequence) and produces the match of the direct call:
    same keyword, arguments, line and comment, or no match in both
    cases. *)
Theorem sequence_wrapped_callee (kws : list string) (cs : list translator_comment)
    (c wrapped : node) (args : list node) (loc : SourceLocation) :
  wraps c wrapped ->
  (is_sequence c = false -> resolve_callee wrapped = c) /\
  discover_call kws cs
    {| call_callee := wrapped; call_arguments := args; call_loc := loc |}
  = discover_call kws cs
    {| call_callee := c; call_arguments := args; call_loc := loc |}.
Proof.
  intros Hwraps. pose proof (wraps_resolve c wrapped Hwraps) as Hres. split.
  - intros Hc. by rewrite Hres, resolve_callee_not_sequence.
  - unfold discover_call, called_name. simpl. by rewrite Hres.
Qed.

(** C5 (amended).  When the transform of a match returns a plain object
    (what [_.isPlainObject] accepts), [_transformMatch] returns that
    object itself and it stands in the output of [getMatches] at the
    match's position, between the records of the matches before and
    after it. *)
Theorem plain_object_verbatim (this : options W) (input : string) (pi : parsedInput)
    (before after : list jsmatch) (m : jsmatch) (o : list (string * value))
    (outs_before outs_after : list value) (w w1 w2 w3 : W) :
  _parseInput RegExp parse this input = Return pi ->
  _discoverMatches this pi = before ++ m :: after ->
  mapM (_transformMatch this) before w = (Return outs_before, w1) ->
  call_keyword (keywords this !! keyword m) m w1 = (Return (VPlainObject o), w2) ->
  mapM (_transformMatch this) after w2 = (Return outs_after, w3) ->
  _transformMatch this m w1 = (Return (VPlainObject o), w2) /\
  getMatches RegExp parse this input w =
  (Return (flatten outs_before ++ VPlainObject o :: flatten outs_after), w3).
Proof.
  intros Hparse Hmatches Hbefore Hcall Hafter.
  pose proof (transformMatch_returned this m w1 w2 _ Hcall) as Hm. simpl in Hm.
  split; [exact Hm|].
  rewrite (getMatches_parsed RegExp parse _ _ pi) by exact Hparse.
  rewrite Hmatches, mapM_app, Hbefore. simpl.
  unfold bind at 1. rewrite Hm. unfold bind at 1. rewrite Hafter.
  unfold ret. by rewrite flatten_app.
Qed.

(** C6.  When the transform of a match returns a value that is not a
    plain object, the records of the match are those of the truthy
    elements of the returned list, in order (of the value itself when it
    is not a list): every falsy element (undefined, null, false, 0, the
    empty string) is discarded, a falsy value or a list of falsy values
    gives no record, and the [string] of every record is truthy. *)
Theorem falsy_values_filtered (this : options W) (m : jsmatch) (v : value) (w w' : W) :
  call_keyword (keywords this !! keyword m) m w = (Return v, w') ->
  isPlainObject v = false ->
  exists records,
    _transformMatch this m w = (Return (VArray records), w') /\
    (forall l, v = VArray l ->
       records = map (transformed_record m) (List.filter Boolean l)) /\
    (forall l1 x l2, v = VArray (l1 ++ x :: l2) ->
       x ∈ [VUndefined; VNull; VBoolean false; VNumber 0; VString ""] ->
       records = map (transformed_record m) (List.filter Boolean (l1 ++ l2))) /\
    (forall l1 x l2, v = VArray (l1 ++ x :: l2) ->
       x ∉ [VUndefined; VNull; VBoolean false; VNumber 0; VString ""] ->
       records = map (transformed_record m) (List.filter Boolean l1)
                 ++ transformed_record m x
                    :: map (transformed_record m) (List.filter Boolean l2)) /\
    (forall l, v = VArray l -> Forall (fun x => Boolean x = false) l -> records = []) /\
    (instanceof_Array v = false ->
       records = if Boolean v then [transformed_record m v] else []) /\
    (v ∈ [VUndefined; VNull; VBoolean false; VNumber 0; VString ""] -> records = []) /\
    Forall (fun r => Boolean (get_property r "string") = true) records.
Proof.
  intros Hcall Hplain. eexists. split.
  { rewrite (transformMatch_returned this m w w' v Hcall). by rewrite Hplain. }
  split; [by intros l ->|].
  split.
  { intros l1 x l2 -> Hx. simpl. rewrite !List.filter_app. simpl.
    by rewrite (proj2 (Boolean_falsy x) Hx). }
  split.
  { intros l1 x l2 -> Hx. simpl. rewrite List.filter_app, map_app. simpl.
    destruct (Boolean x) eqn:Htruthy; [reflexivity|].
    by apply Boolean_falsy in Htruthy. }
  split; [intros l -> Hall; simpl; by rewrite filter_none|].
  split.
  { intros Harray. destruct v; simpl in *; try discriminate; try reflexivity;
      by repeat case_match. }
  split.
  { intros Hv%Boolean_falsy. destruct v; simpl in *; try discriminate;
      by rewrite ?Hv. }
  apply Forall_map, Forall_forall. intros x Hx.
  apply list_elem_of_In, filter_In in Hx as [_ Hx]. exact Hx.
Qed.


(** C3 (amended).  For a matched call and the comments the parser
    reports: the match's [comment] is the text of a comment, with the
    prefix removed and trimmed, exactly when that comment passes the prefix
    test, starts on the call's start line or on the line before, and no
    later comment passes both tests.  So a comment that fails the prefix
    test or starts two or more lines away is never attached. *)
Theorem comment_attached_iff (rx : regexp) (raws : list raw_comment)
    (kws : list string) (node : call_node) (m : jsmatch) (v : string) :
  discover_call kws (fold_left (onComment rx) raws []) node = Some m ->
  comment m = Some v <->
  exists before c after,
    raws = before ++ c :: after /\
    rx_test rx (rc_text c) = true /\
    same_or_previous_line (pos_line (loc_start (call_loc node)))
      (pos_line (rc_startLoc c)) = true /\
    v = trim (rx_replace_empty rx (rc_text c)) /\
    Forall (fun c' =>
      raw_qualifies rx (pos_line (loc_start (call_loc node))) c' = false) after.
Proof.
  intros Hm. apply discover_call_inv in Hm as (_ & _ & _ & _ & Hline & ->).
  rewrite Hline, onComment_fold, app_nil_l, filter_qualifies_collected, last_of_map.
  set (L := pos_line (loc_start (call_loc node))).
  split.
  - destruct (last (List.filter (raw_qualifies rx L) raws)) as [c|] eqn:Hlast;
      [|discriminate].
    intros [= <-]. apply last_filter_split in Hlast as (before & after & -> & Hc & Hafter).
    apply andb_true_iff in Hc as [Htest Hsame].
    by exists before, c, after.
  - intros (before & c & after & -> & Htest & Hsame & -> & Hafter).
    assert (last (List.filter (raw_qualifies rx L) (before ++ c :: after)) = Some c)
      as ->; [|reflexivity].
    apply last_filter_split. exists before, after.
    split; [done|]. split; [|done].
    unfold raw_qualifies. by rewrite Htest, Hsame.
Qed.

(** C7 (amended).  A match built by the discoverer records the call's
    argument list, the resolved keyword name and the line the call starts
    on; nothing of the column: calls that start on the same line give the
    same match wherever they start and end. *)
Theorem match_records_start_line (kws : list string) (cs : list translator_comment)
    (node : call_node) (m : jsmatch) :
  discover_call kws cs node = Some m ->
  arguments m = call_arguments node /\
  called_name node = Some (keyword m) /\
  line m = pos_line (loc_start (call_loc node)) /\
  forall loc',
    pos_line (loc_start loc') = pos_line (loc_start (call_loc node)) ->
    discover_call kws cs
      {| call_callee := call_callee node; call_arguments := call_arguments node;
         call_loc := loc' |} = Some m.
Proof.
  intros Hm.
  pose proof (discover_call_inv kws cs node m Hm) as (Hname & _ & _ & Hargs & Hline & _).
  repeat split; try done.
  intros loc' Hloc'. rewrite <- Hm. unfold discover_call, called_name. simpl.
  by rewrite Hloc'.
Qed.

(** C8.  For a matched call with two or more comments that pass the line
    test, the comment attached is the last of them in the order the
    comments were collected. *)
Theorem last_qualifying_comment_wins (kws : list string) (cs : list translator_comment)
    (node : call_node) (m : jsmatch) :
  discover_call kws cs node = Some m ->
  (2 <= List.length
          (List.filter (qualifies (pos_line (loc_start (call_loc node)))) cs))%nat ->
  exists before c after,
    cs = before ++ c :: after /\
    qualifies (pos_line (loc_start (call_loc node))) c = true /\
    Forall (fun c' =>
      qualifies (pos_line (loc_start (call_loc node))) c' = false) after /\
    comment m = Some (tc_value c).
Proof.
  intros Hm Htwo. apply discover_call_inv in Hm as (_ & _ & _ & _ & Hline & Hc).
  rewrite Hline in Hc.
  destruct (last (List.filter (qualifies (pos_line (loc_start (call_loc node)))) cs))
    as [c|] eqn:Hlast.
  - apply last_filter_split in Hlast as (before & after & Hcs & Hq & Hafter).
    by exists before, c, after.
  - apply last_None in Hlast. rewrite Hlast in Htwo. simpl in Htwo. lia.
Qed.

(** C9 (amended).  For an engine all of whose transforms are functions of
    the match alone, [getMatches] on the engine object returns the
    extraction, a function of the engine's options and the source text, and
    leaves the object and the transforms' state as they were: it sets no
    property on the object.  So in any series of calls on one object each
    outcome is the extraction of its own input, and equal inputs give equal
    outcomes whatever was extracted in between. *)
Theorem getMatches_repeatable (this : gmap string (OnInstance.property W))
    (o : options W) (views : string -> jsmatch -> outcome value) :
  this !! "options"%string = Some (OnInstance.POptions o) ->
  pure_views o views ->
  (forall input w,
     OnInstance.getMatches RegExp parse input this w
     = (extract RegExp parse views o input, this, w)) /\
  (forall inputs w,
     OnInstance.getMatches_each RegExp parse inputs this w
     = (map (extract RegExp parse views o) inputs, this, w)).
Proof.
  intros Hoptions Hviews.
  assert (forall input w,
            OnInstance.getMatches RegExp parse input this w
            = (extract RegExp parse views o input, this, w)) as Hone.
  { intros input w. rewrite (getMatches_on_instance RegExp parse this o input w Hoptions).
    by rewrite (getMatches_views RegExp parse o views input w Hviews). }
  split; [exact Hone|].
  induction inputs as [|input rest IH]; intros w; [reflexivity|].
  cbn [OnInstance.getMatches_each map]. by rewrite Hone, IH.
Qed.

(** C10.  A call whose callee is a computed member access with a property
    that is not an identifier produces no match, whatever the property is
    (a string literal naming a registered keyword included). *)
Theorem computed_member_not_matched (kws : list string) (cs : list translator_comment)
    (object property : node) (args : list node) (loc : SourceLocation) :
  (forall name, property <> Identifier name) ->
  discover_call kws cs
    {| call_callee := MemberExpression object property true;
       call_arguments := args; call_loc := loc |} = None.
Proof.
  intros Hproperty. unfold discover_call, called_name, functionName. simpl.
  destruct property as [ name | | | | | | | | ]; try reflexivity.
  by destruct (Hproperty name).
Qed.

End Properties.

(** C1, as stated, fails on [_('')]: one call to the keyword [_] (configured
    with 1) on a string literal, and no record, since the empty string is
    falsy and filtered out. *)
Lemma empty_literal_gives_no_record :
  exists pi c,
    _parseInput literal_RegExp acorn (XGettext (W := unit) no_options) src_empty_literal
      = Return pi /\
    walk_calls (ast pi) = [c] /\
    called_name c = Some "_"%string /\
    configured (W := unit) no_options !! "_"%string = Some (KNumber 1) /\
    call_arguments c = [Literal (VString "")] /\
    run (XGettext no_options) src_empty_literal tt = (Return [], tt).
Proof. do 2 eexists. repeat split; reflexivity. Qed.

Lemma single_keyword_call_extracted_witness :
  exists cmt,
    run (XGettext no_options) src_hello tt =
    (Return [transformed_record
               {| arguments := [hello]; keyword := "_"; line := 1; comment := cmt |}
               (VString "Hello World!")], tt).
Proof.
  refine (single_keyword_call_extracted literal_RegExp acorn no_options src_hello
            {| comments := []; ast := parsed_ast ast_hello |} [] []
            {| call_callee := Identifier "_"; call_arguments := [hello];
               call_loc := location 1 0 1 19 |}
            "_" "Hello World!" [] tt _ _ _ _ _ _ _ _);
    try reflexivity; try discriminate.
  intros c' n Hc'. by apply elem_of_nil in Hc'.
Defined.


Lemma configuration_pure {W} (given : user_options W) :
  (forall name f, configured given !! name = Some (KFunction f) -> pure_transform f) ->
  pure_configuration (XGettext given).
Proof.
  intros Hgiven name f. rewrite XGettext_keywords.
  destruct (configured given !! name) as [[n|f'|v]|] eqn:Hname; simpl; try discriminate.
  - intros [= <-]. apply nth_argument_pure.
  - intros [= <-]. by apply (Hgiven name).
Qed.

Lemma default_configuration_pure : pure_configuration (XGettext (W := unit) no_options).
Proof.
  apply configuration_pure. intros name f.
  change (configured no_options) with ({[ "_"%string := KNumber 1 ]} : gmap string (keyword_spec unit)).
  intros [_ Hf]%lookup_singleton_Some. discriminate.
Qed.

(** C2, as stated, fails on the empty literal: the transform returns the
    literal's value and the match yields no record. *)
Lemma numeric_keyword_empty_literal :
  keywords (XGettext (W := unit) no_options) !! keyword match_empty_literal
    = Some (_normalizeKeyword (KNumber 1)) /\
  arguments match_empty_literal !! Z.to_nat (1 - 1) = Some (Literal (VString "")) /\
  nth_argument 1 match_empty_literal tt = (Return (VString ""), tt) /\
  _transformMatch (XGettext no_options) match_empty_literal tt = (Return (VArray []), tt).
Proof. repeat split; reflexivity. Qed.

Lemma numeric_keyword_transform_witness :
  _transformMatch (XGettext (with_keywords second_argument_keywords))
    match_second_argument tt
  = (Return (VArray [transformed_record match_second_argument (VString "Hello World!")]),
     tt).
Proof.
  destruct (numeric_keyword_transform
              (XGettext (with_keywords second_argument_keywords)) 2
              match_second_argument tt) as [Hliteral _];
    [lia | reflexivity |].
  exact (proj2 (Hliteral "Hello World!"%string eq_refl)).
Defined.

(** C3, as stated, fails with two translator comments near a call: in
    [src_two_comments] the first comment starts on the line before the
    call, and the comment attached is the second one. *)
Lemma earlier_qualifying_comment_not_attached :
  exists pi m first,
    _parseInput literal_RegExp acorn (XGettext (W := unit) no_options) src_two_comments
      = Return pi /\
    _discoverMatches (XGettext (W := unit) no_options) pi = [m] /\
    first ∈ comments pi /\
    tc_value first = "first"%string /\
    qualifies (line m) first = true /\
    comment m = Some "second"%string.
Proof.
  exists {| comments := [ {| tc_value := "first"; tc_line := position 1 0 |};
                          {| tc_value := "second"; tc_line := position 2 0 |} ];
            ast := parsed_ast ast_two_comments |}.
  eexists. exists {| tc_value := "first"; tc_line := position 1 0 |}.
  repeat split; try reflexivity. left.
Qed.

Lemma comment_attached_iff_witness :
  exists before c after,
    parsed_comments ast_same_line = before ++ c :: after /\
    rx_test translators_rx (rc_text c) = true /\
    same_or_previous_line (pos_line (loc_start (call_loc call_hello)))
      (pos_line (rc_startLoc c)) = true /\
    "greeting"%string = trim (rx_replace_empty translators_rx (rc_text c)) /\
    Forall (fun c' =>
      raw_qualifies translators_rx (pos_line (loc_start (call_loc call_hello))) c'
      = false) after.
Proof.
  exact (proj1 (comment_attached_iff translators_rx (parsed_comments ast_same_line)
                  ["_"%string] call_hello
                  {| arguments := [hello]; keyword := "_"; line := 1;
                     comment := Some "greeting"%string |}
                  "greeting" eq_refl) eq_refl).
Defined.

Lemma sequence_wrapped_callee_witness :
  discover_call ["_"%string] []
    {| call_callee :=
         SequenceExpression (Literal (VNumber 0))
           [SequenceExpression (Literal (VNumber 0)) [transpiled_callee]];
       call_arguments := [hello]; call_loc := location 1 0 1 51 |}
  = discover_call ["_"%string] []
    {| call_callee := transpiled_callee;
       call_arguments := [hello]; call_loc := location 1 0 1 51 |}.
Proof.
  apply sequence_wrapped_callee.
  eapply wraps_more; [reflexivity|].
  apply wraps_once. reflexivity.
Defined.

(** C5, as stated, fails for an object that is not plain: a transform
    returning a [Date] gets a record with the date as its [string]. *)
Lemma instance_is_normalized :
  structured_object a_date = true /\
  call_keyword (keywords (XGettext (with_keywords date_keywords)) !! "_"%string)
    match_hello tt = (Return a_date, tt) /\
  run (XGettext (with_keywords date_keywords)) src_hello tt
  = (Return [VPlainObject [("string"%string, a_date); ("line"%string, VNumber 1)]], tt).
Proof. repeat split; reflexivity. Qed.

Lemma plain_object_verbatim_witness :
  run (XGettext (with_keywords object_keywords)) src_hello tt
  = (Return [VPlainObject isOkay], tt).
Proof.
  exact (proj2 (plain_object_verbatim literal_RegExp acorn
                  (XGettext (with_keywords object_keywords)) src_hello
                  {| comments := []; ast := parsed_ast ast_hello |}
                  [] [] match_hello isOkay [] [] tt tt tt tt
                  eq_refl eq_refl eq_refl eq_refl eq_refl)).
Defined.

Lemma falsy_values_filtered_witness :
  exists records,
    _transformMatch (XGettext (with_keywords mixed_list_keywords)) match_hello tt
    = (Return (VArray records), tt) /\
    records = [transformed_record match_hello (VString "x")].
Proof.
  destruct (falsy_values_filtered (XGettext (with_keywords mixed_list_keywords))
              match_hello (VArray [VString ""; VBoolean false; VString "x"]) tt tt
              eq_refl eq_refl)
    as (records & Hrun & Hlist & _).
  exists records. split; [exact Hrun | exact (Hlist _ eq_refl)].
Defined.

(** C7, as stated, fails: the two calls of [_('a'); _('a');] start in
    different columns and give the same match, so a match holds nothing of
    the column. *)
Lemma calls_in_different_columns_same_match :
  exists m,
    discover_call ["_"%string] [] call_at_column_0 = Some m /\
    discover_call ["_"%string] [] call_at_column_8 = Some m /\
    pos_column (loc_start (call_loc call_at_column_0))
    <> pos_column (loc_start (call_loc call_at_column_8)).
Proof. eexists. split; [reflexivity | split; [reflexivity | discriminate]]. Qed.

Lemma match_records_start_line_witness :
  arguments match_hello = call_arguments call_hello /\
  called_name call_hello = Some (keyword match_hello) /\
  line match_hello = pos_line (loc_start (call_loc call_hello)) /\
  discover_call ["_"%string] []
    {| call_callee := call_callee call_hello;
       call_arguments := call_arguments call_hello;
       call_loc := location 1 4 1 23 |} = Some match_hello.
Proof.
  destruct (match_records_start_line ["_"%string] [] call_hello match_hello eq_refl)
    as (Hargs & Hname & Hline & Hcolumn).
  split; [exact Hargs | split; [exact Hname | split; [exact Hline |]]].
  exact (Hcolumn (location 1 4 1 23) eq_refl).
Defined.

Lemma last_qualifying_comment_wins_witness :
  exists before c after,
    [ {| tc_value := "first"; tc_line := position 1 0 |};
      {| tc_value := "second"; tc_line := position 2 0 |} ] = before ++ c :: after /\
    qualifies 2 c = true /\
    Forall (fun c' => qualifies 2 c' = false) after /\
    Some "second"%string = Some (tc_value c).
Proof.
  apply (last_qualifying_comment_wins ["_"%string]
           [ {| tc_value := "first"; tc_line := position 1 0 |};
             {| tc_value := "second"; tc_line := position 2 0 |} ]
           {| call_callee := Identifier "_"; call_arguments := [hello];
              call_loc := location 2 26 2 43 |}
           {| arguments := [hello]; keyword := "_"; line := 2;
              comment := Some "second"%string |});
    [reflexivity | simpl; lia].
Defined.

(** C9, as stated, fails for a transform with state: two calls on the same
    engine and input return different records. *)
Lemma stateful_transform_not_repeatable :
  run (XGettext (with_keywords counting_keywords)) src_hello 0
  = (Return [VPlainObject [("string"%string, VString "first");
                           ("line"%string, VNumber 1)]], 1) /\
  run (XGettext (with_keywords counting_keywords)) src_hello 1
  = (Return [VPlainObject [("string"%string, VString "again");
                           ("line"%string, VNumber 1)]], 2).
Proof. split; reflexivity. Qed.

Lemma views_of_pure (this : options unit) : pure_views this (views_of this).
Proof.
  intros name m []. unfold views_of.
  by destruct (call_keyword (keywords this !! name) m tt) as [r []].
Qed.

Lemma getMatches_repeatable_witness :
  OnInstance.getMatches_each literal_RegExp acorn
    [src_hello; src_same_line; src_empty_literal; src_hello]
    (OnInstance.new_XGettext no_options) tt
  = ([ Return [record "Hello World!" 1];
       Return [record_with_comment "Hello World!" 1 "greeting"];
       Return [];
       Return [record "Hello World!" 1] ],
     OnInstance.new_XGettext no_options, tt).
Proof.
  exact (proj2 (getMatches_repeatable literal_RegExp acorn
                  (OnInstance.new_XGettext no_options) (XGettext no_options)
                  (views_of (XGettext no_options)) eq_refl
                  (views_of_pure (XGettext no_options)))
           [src_hello; src_same_line; src_empty_literal; src_hello] tt).
Defined.

Lemma computed_member_not_matched_witness :
  discover_call ["_"%string] []
    {| call_callee := MemberExpression (Identifier "obj") (Literal (VString "_")) true;
       call_arguments := [hello]; call_loc := location 1 0 1 24 |} = None.
Proof. apply computed_member_not_matched. intros name. discriminate. Defined.


(** ** Further properties of the engine *)

Section FurtherProperties.

Context {W : Type}.
Variable RegExp : string -> string -> outcome regexp.
Variable parse : string -> outcome parse_output.

(** X2.  Keywords given to the constructor replace the default table
    instead of extending it: the registered names are exactly the given
    ones, each with its normalized value, so [_] is a keyword only when it
    is given again. *)
Theorem given_keywords_replace_default (given : user_options W)
    (k : gmap string (keyword_spec W)) (name : string) :
  user_keywords given = Some k ->
  (name ∈ keywordFunctions (XGettext given) <-> is_Some (k !! name)) /\
  keywords (XGettext given) !! name = _normalizeKeyword <$> k !! name.
Proof.
  intros Hk.
  assert (configured given = k) as Hcfg.
  { unfold configured, extend. simpl. by rewrite Hk. }
  by rewrite XGettext_keywordFunctions, XGettext_keywords, Hcfg.
Qed.

(** X3.  [_normalizeKeywords] keeps the names, leaves no number behind,
    keeps every function as it is, and normalizing again changes
    nothing. *)
Theorem normalizeKeywords_idempotent (k : gmap string (keyword_spec W)) :
  _normalizeKeywords (_normalizeKeywords k) = _normalizeKeywords k /\
  dom (_normalizeKeywords k) = dom k /\
  (forall name n, _normalizeKeywords k !! name <> Some (KNumber n)) /\
  (forall name f, k !! name = Some (KFunction f) ->
                  _normalizeKeywords k !! name = Some (KFunction f)).
Proof.
  unfold _normalizeKeywords. repeat split.
  - rewrite <- map_fmap_compose. apply map_fmap_ext.
    intros name [n|f|v] _; reflexivity.
  - apply dom_fmap_L.
  - intros name n. rewrite lookup_fmap.
    destruct (k !! name) as [[n'|f|v]|]; simpl; congruence.
  - intros name f Hf. by rewrite lookup_fmap, Hf.
Qed.

(** X4.  A keyword configured with zero or a negative number makes the
    transform throw a [TypeError] on every match, whatever its arguments:
    the length test always passes and the argument read is undefined. *)
Theorem nonpositive_position_throws (this : options W) (N : Z) (m : jsmatch) (w : W) :
  N <= 0 ->
  keywords this !! keyword m = Some (_normalizeKeyword (KNumber N)) ->
  nth_argument N m w = (Throw TypeError, w) /\
  _transformMatch this m w = (Throw TypeError, w).
Proof.
  intros HN Hkw.
  assert (nth_argument N m w = (Throw TypeError, w)) as Hnth.
  { unfold nth_argument.
    destruct (Z.gtb_spec (Z.of_nat (List.length (arguments m))) (N - 1)); [|lia].
    unfold array_get. destruct (Z.ltb_spec (N - 1) 0); [reflexivity | lia]. }
  split; [exact Hnth|].
  apply transformMatch_thrown. rewrite Hkw. exact Hnth.
Qed.

(** X5.  When the tree has no call whose resolved name is registered,
    [getMatches] returns the empty list and runs no transform, whatever
    the values of the keywords are. *)
Theorem no_keyword_call_no_record (this : options W) (input : string)
    (pi : parsedInput) (w : W) :
  _parseInput RegExp parse this input = Return pi ->
  (forall c name, c ∈ walk_calls (ast pi) ->
                  called_name c = Some name -> name ∉ keywordFunctions this) ->
  _discoverMatches this pi = [] /\
  getMatches RegExp parse this input w = (Return [], w).
Proof.
  intros Hparse Hnone.
  assert (_discoverMatches this pi = []) as Hmatches.
  { rewrite discoverMatches_omap. apply omap_skipped.
    intros c Hc. apply discover_call_skipped. intros name. by apply Hnone. }
  split; [exact Hmatches|].
  rewrite (getMatches_parsed RegExp parse _ _ pi) by exact Hparse.
  by rewrite Hmatches.
Qed.

(** X6.  A comment prefix that is not a valid pattern is not detected by
    the constructor: [getMatches] then throws the [RegExp] error on every
    input, before parsing and without running a transform. *)
Theorem invalid_prefix_fails_every_input (this : options W) (prefix : string)
    (e : exn) (input : string) (w : W) :
  commentPrefix this = Some prefix ->
  RegExp ("^\s*" +:+ prefix) "i" = Throw e ->
  getMatches RegExp parse this input w = (Throw e, w).
Proof.
  intros Hprefix Hrx. apply getMatches_parse_error.
  unfold _parseInput. by rewrite Hprefix, Hrx.
Qed.

(** X7.  A syntax error of the parser is the outcome of [getMatches]: no
    transform runs and nothing is returned, also when comments were
    collected before the error. *)
Theorem syntax_error_propagates (this : options W) (input : string)
    (e : exn) (w : W) :
  parse input = Throw e ->
  (forall prefix, commentPrefix this = Some prefix ->
                  exists rx, RegExp ("^\s*" +:+ prefix) "i" = Return rx) ->
  getMatches RegExp parse this input w = (Throw e, w).
Proof.
  intros Hparse Hrx. apply getMatches_parse_error. unfold _parseInput.
  destruct (commentPrefix this) as [prefix|].
  - destruct (Hrx prefix eq_refl) as [rx ->]. simpl. by rewrite Hparse.
  - by rewrite Hparse.
Qed.

(** X8.  When the transform of a match throws, [getMatches] throws that
    error: the records of the earlier matches are lost and the transforms
    of the later matches are not run (the state is the one the throwing
    transform left). *)
Theorem transform_error_aborts (this : options W) (input : string) (pi : parsedInput)
    (before after : list jsmatch) (m : jsmatch) (outs : list value) (e : exn)
    (w w1 w2 : W) :
  _parseInput RegExp parse this input = Return pi ->
  _discoverMatches this pi = before ++ m :: after ->
  mapM (_transformMatch this) before w = (Return outs, w1) ->
  call_keyword (keywords this !! keyword m) m w1 = (Throw e, w2) ->
  getMatches RegExp parse this input w = (Throw e, w2).
Proof.
  intros Hparse Hmatches Hbefore Hcall.
  rewrite (getMatches_parsed RegExp parse _ _ pi) by exact Hparse.
  rewrite Hmatches, mapM_app, Hbefore. simpl. unfold bind at 1.
  by rewrite (transformMatch_thrown this m w1 w2 e Hcall).
Qed.

(** X9.  With [commentPrefix] set to undefined no comment is collected,
    no match has a comment and no record gets a [comment] property. *)
Theorem disabled_prefix_no_comment (this : options W) (input : string)
    (pi : parsedInput) :
  commentPrefix this = None ->
  _parseInput RegExp parse this input = Return pi ->
  comments pi = [] /\
  forall m, m ∈ _discoverMatches this pi ->
    comment m = None /\
    forall s, get_property (transformed_record m s) "comment" = VUndefined.
Proof.
  intros Hprefix Hparse. unfold _parseInput in Hparse. rewrite Hprefix in Hparse.
  destruct (parse input) as [parsed|e]; [|discriminate].
  simpl in Hparse. injection Hparse as <-. split; [reflexivity|].
  intros m Hm. rewrite discoverMatches_omap in Hm.
  apply list_elem_of_omap in Hm as (c & _ & Hc).
  apply discover_call_inv in Hc as (_ & _ & _ & _ & _ & Hcomment).
  simpl in Hcomment. split; [exact Hcomment|].
  intros s. unfold transformed_record. by rewrite Hcomment.
Qed.

(** One call under an engine whose keywords are positive numbers: either
    the visitor skips it and nothing is expected of it, or the transform of
    its match returns the expected record, if any. *)
Lemma numeric_call (given : user_options W) (cs : list translator_comment)
    (c : call_node) :
  positive_numbers given ->
  match discover_call (keywordFunctions (XGettext given)) cs c with
  | None => numeric_record given cs c = None
  | Some m =>
      forall w, _transformMatch (XGettext given) m w
                = (Return (VArray (option_list (numeric_record given cs c))), w)
  end.
Proof.
  intros Hpos. unfold numeric_record.
  destruct (called_name c) as [name|] eqn:Hname.
  2:{ rewrite discover_call_skipped; [reflexivity|]. intros n Hn. congruence. }
  destruct (String.eqb_spec name EmptyString) as [->|Hne].
  { unfold discover_call. by rewrite Hname. }
  destruct (configured given !! name) as [k|] eqn:Hcfg.
  2:{ rewrite discover_call_skipped; [reflexivity|].
      intros n Hn Hin. rewrite Hname in Hn. injection Hn as <-.
      apply XGettext_keywordFunctions in Hin as [v Hv]. congruence. }
  destruct (Hpos name k Hcfg) as (N & -> & HN).
  rewrite (discover_call_found _ cs c name Hname Hne)
    by (apply XGettext_keywordFunctions; rewrite Hcfg; by eexists).
  fold (comment_of_line cs (pos_line (loc_start (call_loc c)))).
  set (m := Build_jsmatch _ _ _ _). intros w.
  assert (keywords (XGettext given) !! keyword m = Some (KFunction (nth_argument N)))
    as Hkw by (unfold m; cbn [keyword]; by rewrite XGettext_keywords, Hcfg).
  assert (forall v, nth_argument N m w = (Return v, w) ->
            isPlainObject v = false ->
            _transformMatch (XGettext given) m w
            = (Return (VArray (map (transformed_record m)
                                 (List.filter Boolean (as_array v)))), w)) as Hrun.
  { intros v Hv Hplain. erewrite transformMatch_returned by (rewrite Hkw; exact Hv).
    by rewrite Hplain. }
  destruct (call_arguments c !! Z.to_nat (N - 1)) as [argument|] eqn:Harg.
  2:{ rewrite (Hrun VUndefined); [reflexivity| |reflexivity].
      apply nth_argument_other; [exact HN|]. simpl. intros s. congruence. }
  assert ((forall s, argument <> Literal (VString s)) ->
            _transformMatch (XGettext given) m w = (Return (VArray []), w)) as Hother.
  { intros Hnot. rewrite (Hrun VUndefined); [reflexivity| |reflexivity].
    apply nth_argument_other; [exact HN|]. simpl. intros s. rewrite Harg.
    intros [= ->]. by apply (Hnot s). }
  destruct argument as [ | v | | | | | | | ];
    try (apply Hother; intros; discriminate).
  destruct v; try (apply Hother; intros; discriminate).
  rewrite (Hrun (VString s)); [| by apply nth_argument_literal | reflexivity].
  simpl. by destruct (String.eqb s EmptyString).
Qed.

(** X10.  For an engine whose keywords are all positive numbers the output
    of [getMatches] is, in the order of the walk, one record for each call
    whose resolved name is a keyword and whose argument at the keyword's
    position is a non-empty string literal; the record has that string, the
    call's start line and the comment of that line.  No other call gives a
    record, and the call never throws once the source parses. *)
Theorem numeric_engine_output (given : user_options W) (input : string)
    (pi : parsedInput) (w : W) :
  positive_numbers given ->
  _parseInput RegExp parse (XGettext given) input = Return pi ->
  getMatches RegExp parse (XGettext given) input w
  = (Return (omap (numeric_record given (comments pi)) (walk_calls (ast pi))), w).
Proof.
  intros Hpos Hparse.
  rewrite (getMatches_parsed RegExp parse _ _ pi) by exact Hparse.
  rewrite discoverMatches_omap.
  assert (exists outs,
            mapM (_transformMatch (XGettext given))
              (omap (discover_call (keywordFunctions (XGettext given)) (comments pi))
                 (walk_calls (ast pi))) w = (Return outs, w) /\
            flatten outs
            = omap (numeric_record given (comments pi)) (walk_calls (ast pi)))
    as (outs & -> & <-); [|reflexivity].
  induction (walk_calls (ast pi)) as [|c t (outs & IHrun & IHflat)].
  - by exists [].
  - pose proof (numeric_call given (comments pi) c Hpos) as Hc. cbn [omap list_omap].
    destruct (discover_call _ (comments pi) c) as [m|].
    + eexists. cbn [mapM]. unfold bind, ret. rewrite (Hc w), IHrun.
      split; [reflexivity|].
      cbn [flatten flat_map option_list]. fold (flatten outs). rewrite IHflat.
      by destruct (numeric_record given (comments pi) c).
    + exists outs. by rewrite Hc.
Qed.

(** X11.  The comment of a match depends on the line the call starts on
    only: matched calls that start on the same line carry the same
    comment, so a comment is attached to every keyword call on its line
    and on the next line. *)
Theorem same_line_same_comment (kws1 kws2 : list string)
    (cs : list translator_comment) (n1 n2 : call_node) (m1 m2 : jsmatch) :
  discover_call kws1 cs n1 = Some m1 ->
  discover_call kws2 cs n2 = Some m2 ->
  pos_line (loc_start (call_loc n1)) = pos_line (loc_start (call_loc n2)) ->
  comment m1 = comment m2.
Proof.
  intros H1 H2 Hline.
  apply discover_call_inv in H1 as (_ & _ & _ & _ & Hl1 & ->).
  apply discover_call_inv in H2 as (_ & _ & _ & _ & Hl2 & ->).
  by rewrite Hl1, Hl2, Hline.
Qed.

(** X12.  For an engine built by the constructor the lookup
    [keywords[ match.keyword ]] of [_transformMatch] always finds the
    normalized value of the configured keyword, never undefined and never
    a number; when every configured value is a number or a function, what
    it finds is a function. *)
Theorem discovered_keyword_has_transform (given : user_options W)
    (pi : parsedInput) (m : jsmatch) :
  m ∈ _discoverMatches (XGettext given) pi ->
  exists k,
    configured given !! keyword m = Some k /\
    keywords (XGettext given) !! keyword m = Some (_normalizeKeyword k) /\
    (forall n, _normalizeKeyword k <> KNumber n) /\
    ((forall v, k <> KOther v) -> exists f, _normalizeKeyword k = KFunction f).
Proof.
  rewrite discoverMatches_omap, list_elem_of_omap.
  intros (c & _ & Hc). apply discover_call_inv in Hc as (_ & _ & Hin & _).
  apply XGettext_keywordFunctions in Hin as [k Hk].
  exists k. rewrite XGettext_keywords, Hk. repeat split.
  - by destruct k.
  - intros Hother. destruct k as [n|f|v]; simpl; eauto. by destruct (Hother v).
Qed.

End FurtherProperties.

Lemma default_positive_numbers : positive_numbers (W := unit) no_options.
Proof.
  intros name k.
  change (configured no_options)
    with ({[ "_"%string := KNumber 1 ]} : gmap string (keyword_spec unit)).
  intros [_ <-]%lookup_singleton_Some. exists 1. split; [reflexivity | lia].
Qed.

Lemma given_keywords_replace_default_witness :
  ("_"%string ∈ keywordFunctions (XGettext (with_keywords second_argument_keywords))
   <-> is_Some (second_argument_keywords !! "_"%string)) /\
  keywords (XGettext (with_keywords second_argument_keywords)) !! "_"%string
  = _normalizeKeyword <$> second_argument_keywords !! "_"%string.
Proof.
  exact (given_keywords_replace_default (with_keywords second_argument_keywords)
           second_argument_keywords "_" eq_refl).
Defined.

Lemma nonpositive_position_throws_witness :
  nth_argument 0 match_hello tt = (Throw TypeError, tt) /\
  _transformMatch (XGettext (with_keywords zero_keywords)) match_hello tt
  = (Throw TypeError, tt).
Proof.
  apply (nonpositive_position_throws (XGettext (with_keywords zero_keywords)) 0
           match_hello tt); [lia | reflexivity].
Defined.

Lemma no_keyword_call_no_record_witness :
  _discoverMatches (XGettext (with_keywords string_keywords))
    {| comments := []; ast := parsed_ast ast_no_call |} = [] /\
  getMatches literal_RegExp acorn_more (XGettext (with_keywords string_keywords))
    src_no_call tt = (Return [], tt).
Proof.
  apply (no_keyword_call_no_record literal_RegExp acorn_more
           (XGettext (with_keywords string_keywords)) src_no_call
           {| comments := []; ast := parsed_ast ast_no_call |} tt); [reflexivity|].
  intros c name Hc. by apply elem_of_nil in Hc.
Defined.

Lemma invalid_prefix_fails_every_input_witness :
  run (XGettext (W := unit)
         {| user_keywords := None; user_commentPrefix := Some (Some "("%string) |})
    src_hello tt = (Throw SyntaxError, tt).
Proof.
  exact (invalid_prefix_fails_every_input literal_RegExp acorn
           (XGettext {| user_keywords := None;
                        user_commentPrefix := Some (Some "("%string) |})
           "(" SyntaxError src_hello tt eq_refl eq_refl).
Defined.

Lemma syntax_error_propagates_witness :
  run (XGettext (W := unit) no_options) "_(" tt = (Throw SyntaxError, tt).
Proof.
  apply (syntax_error_propagates literal_RegExp acorn (XGettext no_options) "_("
           SyntaxError tt); [reflexivity|].
  intros prefix [= <-]. eexists. reflexivity.
Defined.

Lemma transform_error_aborts_witness :
  getMatches literal_RegExp acorn_more (XGettext (with_keywords throwing_keywords))
    src_two_calls 0
  = (Throw (UserThrow (VString "again")), 2).
Proof.
  exact (transform_error_aborts literal_RegExp acorn_more
           (XGettext (with_keywords throwing_keywords)) src_two_calls
           {| comments := []; ast := parsed_ast ast_two_calls |}
           [ {| arguments := [Literal (VString "a")]; keyword := "_"; line := 1;
                comment := None |} ]
           []
           {| arguments := [Literal (VString "a")]; keyword := "_"; line := 1;
              comment := None |}
           [VArray [record "first" 1]] (UserThrow (VString "again")) 0 1 2
           eq_refl eq_refl eq_refl eq_refl).
Defined.

Lemma disabled_prefix_no_comment_witness :
  comments {| comments := []; ast := parsed_ast ast_same_line |} = [] /\
  forall m,
    m ∈ _discoverMatches
          (XGettext (W := unit)
             {| user_keywords := None; user_commentPrefix := Some None |})
          {| comments := []; ast := parsed_ast ast_same_line |} ->
    comment m = None /\
    forall s, get_property (transformed_record m s) "comment" = VUndefined.
Proof.
  exact (disabled_prefix_no_comment literal_RegExp acorn
           (XGettext {| user_keywords := None; user_commentPrefix := Some None |})
           src_same_line {| comments := []; ast := parsed_ast ast_same_line |}
           eq_refl eq_refl).
Defined.

Lemma numeric_engine_output_witness :
  getMatches literal_RegExp acorn_more (XGettext no_options) src_nested_calls tt
  = (Return [record "a" 1], tt).
Proof.
  exact (numeric_engine_output literal_RegExp acorn_more no_options src_nested_calls
           {| comments := []; ast := parsed_ast ast_nested_calls |} tt
           default_positive_numbers eq_refl).
Defined.

Lemma same_line_same_comment_witness :
  comment {| arguments := [Literal (VString "a")]; keyword := "_"; line := 1;
             comment := Some "first"%string |}
  = comment {| arguments := [Literal (VString "a")]; keyword := "_"; line := 1;
               comment := Some "first"%string |}.
Proof.
  exact (same_line_same_comment ["_"%string] ["_"%string]
           [ {| tc_value := "first"; tc_line := position 1 16 |} ]
           call_at_column_0 call_at_column_8 _ _ eq_refl eq_refl eq_refl).
Defined.

Lemma discovered_keyword_has_transform_witness :
  exists k : keyword_spec unit,
    configured no_options !! keyword match_hello = Some k /\
    keywords (XGettext no_options) !! keyword match_hello = Some (_normalizeKeyword k) /\
    (forall n, _normalizeKeyword k <> KNumber n) /\
    ((forall v, k <> KOther v) -> exists f, _normalizeKeyword k = KFunction f).
Proof.
  apply (discovered_keyword_has_transform no_options
           {| comments := []; ast := parsed_ast ast_hello |} match_hello).
  left.
Defined.

(** ** The earlier version on the test sources *)

Example legacy_comment_on_same_line :
  Legacy.getMatches literal_RegExp acorn
    (snd (Legacy.XGettext (Some legacy_note_options) Legacy.defaultOptions))
    src_note tt
  = (Return [VPlainObject [("string"%string, VString "Hello World!");
                           ("comment"%string, VString "greeting")]], tt).
Proof. reflexivity. Qed.

Example legacy_sequence_callee_not_matched :
  Legacy.getMatches literal_RegExp acorn
    (snd (Legacy.XGettext (Some legacy_note_options) Legacy.defaultOptions))
    src_sequence tt
  = (Return [], tt).
Proof. reflexivity. Qed.

Example legacy_without_options :
  fst (Legacy.XGettext (W := unit) None Legacy.defaultOptions) = Throw TypeError.
Proof. reflexivity. Qed.

(** ** Properties of the earlier version *)

Lemma forget_line_fold (L : Z) (cs : list translator_comment) (m : jsmatch) :
  forget_line (fold_left (attach_comment L) cs m)
  = fold_left (Legacy.attach_comment L) cs (forget_line m).
Proof.
  revert m. induction cs as [|c t IH]; intros m; simpl; [reflexivity|].
  rewrite IH. f_equal. unfold attach_comment, Legacy.attach_comment.
  by destruct same_or_previous_line.
Qed.

Section LegacyProperties.

Context {W : Type}.

(** X14.  In the earlier version the engines share one options object:
    after a second construction the shared options hold the second
    engine's keywords and names, and a comment prefix given to the first
    engine stays in force when the second one gives none (the default
    prefix is lost). *)
Theorem legacy_options_are_shared (o1 o2 : Legacy.user_options W)
    (shared0 shared1 shared2 : Legacy.options W) :
  Legacy.XGettext (Some o1) shared0 = (Return tt, shared1) ->
  Legacy.XGettext (Some o2) shared1 = (Return tt, shared2) ->
  exists k2,
    Legacy.user_keywords o2 = Some k2 /\
    Legacy.keywords shared2 = k2 /\
    Legacy.keywordFunctions shared2 = Some (map_to_list k2).*1 /\
    Legacy.commentPrefix shared2
    = default (default (Legacy.commentPrefix shared0) (Legacy.user_commentPrefix o1))
        (Legacy.user_commentPrefix o2).
Proof.
  unfold Legacy.XGettext. simpl.
  destruct (Legacy.user_keywords o1) as [k1|]; [|discriminate].
  intros [= <-].
  destruct (Legacy.user_keywords o2) as [k2|]; [|discriminate].
  intros [= <-]. exists k2. simpl. auto.
Qed.

(** X16.  The earlier discoverer reads the name off the callee itself: a
    call whose callee is not an identifier (a member access such as
    [obj._], a sequence expression) is never a match, and for an
    identifier callee it builds the match of the current discoverer
    without the line. *)
Theorem legacy_discovery_identifiers_only (kws : list string)
    (cs : list translator_comment) (node : call_node) :
  (node_name (call_callee node) = None ->
   Legacy.discover_call (Some kws) cs node = Return None) /\
  (forall name, call_callee node = Identifier name ->
   Legacy.discover_call (Some kws) cs node
   = Return (forget_line <$> discover_call kws cs node)).
Proof.
  split.
  - intros Hname. unfold Legacy.discover_call. by rewrite Hname.
  - intros name Hcallee.
    unfold Legacy.discover_call, discover_call, called_name.
    rewrite Hcallee. simpl.
    destruct (String.eqb name EmptyString); [reflexivity|].
    destruct (indexOf kws name =? -1); [reflexivity|].
    simpl. by rewrite forget_line_fold.
Qed.

(** X17.  On the same result of a transform the two versions differ in
    this: a plain object, which the current [_transformMatch] returns as it
    is, becomes the [string] of a record in the earlier one; for any other
    result the earlier records are the current records without their
    [line], those of the truthy elements of a returned list in order. *)
Theorem legacy_transform_normalizes (this : options W) (earlier : Legacy.options W)
    (m : jsmatch) (v : value) (w w' : W) :
  call_keyword (keywords this !! keyword m) m w = (Return v, w') ->
  Legacy.call_keyword (Legacy.keywords earlier !! keyword m) (forget_line m) w
  = (Return v, w') ->
  exists records,
    Legacy._transformMatch earlier (forget_line m) w = (Return (VArray records), w') /\
    (forall l, v = VArray l ->
       records = map (Legacy.transformed_record (forget_line m)) (List.filter Boolean l)) /\
    (forall o, v = VPlainObject o ->
       _transformMatch this m w = (Return v, w') /\
       records = [Legacy.transformed_record (forget_line m) v]) /\
    (isPlainObject v = false ->
       exists current,
         _transformMatch this m w = (Return (VArray current), w') /\
         records = map without_line current).
Proof.
  intros Hcall Hearlier. eexists. split.
  { unfold Legacy._transformMatch, bind. simpl in Hearlier. simpl.
    by rewrite Hearlier. }
  split; [by intros l ->|].
  split.
  { intros o ->. split; [|reflexivity].
    by rewrite (transformMatch_returned this m w w' _ Hcall). }
  intros Hplain. eexists. split.
  { rewrite (transformMatch_returned this m w w' _ Hcall). by rewrite Hplain. }
  rewrite map_map. apply map_ext. intros s.
  unfold without_line, transformed_record, Legacy.transformed_record. simpl.
  by destruct (comment m).
Qed.

(** X18.  The default transform of [_] in the earlier version is the
    transform the current version synthesizes for the keyword number 1: on
    every match both return the same value or throw alike. *)
Theorem legacy_default_is_first_position (m : jsmatch) (w : W) :
  Legacy.first_argument (forget_line m) w = nth_argument 1 m w.
Proof.
  unfold Legacy.first_argument, nth_argument. simpl.
  change (1 - 1) with 0.
  destruct (_ >? 0); [|reflexivity].
  destruct (array_get (arguments m) 0) as [argument|]; [|reflexivity].
  by destruct (typeof_string (node_value argument)).
Qed.

End LegacyProperties.

Lemma legacy_options_are_shared_witness :
  exists k2,
    Legacy.user_keywords legacy_other_options = Some k2 /\
    Legacy.keywords
      (snd (Legacy.XGettext (Some legacy_other_options)
              (snd (Legacy.XGettext (Some legacy_note_options) Legacy.defaultOptions))))
    = k2 /\
    Legacy.keywordFunctions
      (snd (Legacy.XGettext (Some legacy_other_options)
              (snd (Legacy.XGettext (Some legacy_note_options) Legacy.defaultOptions))))
    = Some (map_to_list k2).*1 /\
    Legacy.commentPrefix
      (snd (Legacy.XGettext (Some legacy_other_options)
              (snd (Legacy.XGettext (Some legacy_note_options) Legacy.defaultOptions))))
    = default (default (Legacy.commentPrefix (W := unit) Legacy.defaultOptions)
                 (Legacy.user_commentPrefix legacy_note_options))
        (Legacy.user_commentPrefix legacy_other_options).
Proof.
  exact (legacy_options_are_shared legacy_note_options legacy_other_options
           Legacy.defaultOptions _ _ eq_refl eq_refl).
Defined.

Lemma legacy_transform_normalizes_witness :
  exists records,
    Legacy._transformMatch
      {| Legacy.keywords := legacy_object_keywords;
         Legacy.commentPrefix := Some "translators:"%string;
         Legacy.keywordFunctions := Some ["_"%string] |}
      (forget_line match_hello) tt
    = (Return (VArray records), tt) /\
    _transformMatch (XGettext (with_keywords object_keywords)) match_hello tt
    = (Return (VPlainObject isOkay), tt) /\
    records = [VPlainObject [("string"%string, VPlainObject isOkay)]].
Proof.
  destruct (legacy_transform_normalizes
              (XGettext (with_keywords object_keywords))
              {| Legacy.keywords := legacy_object_keywords;
                 Legacy.commentPrefix := Some "translators:"%string;
                 Legacy.keywordFunctions := Some ["_"%string] |}
              match_hello (VPlainObject isOkay) tt tt eq_refl eq_refl)
    as (records & Hrun & _ & Hplain & _).
  exists records. split; [exact Hrun | exact (Hplain isOkay eq_refl)].
Defined.

Lemma normalizeKeywords_idempotent_witness :
  _normalizeKeywords object_keywords !! "_"%string
  = Some (KFunction (fun _ => ret (VPlainObject isOkay))).
Proof.
  destruct (normalizeKeywords_idempotent object_keywords) as (_ & _ & _ & Hkept).
  exact (Hkept "_"%string _ eq_refl).
Defined.

Lemma legacy_discovery_identifiers_only_witness :
  Legacy.discover_call (Some ["_"%string]) [] call_hello
  = Return (forget_line <$> discover_call ["_"%string] [] call_hello).
Proof.
  exact (proj2 (legacy_discovery_identifiers_only ["_"%string] [] call_hello)
           "_"%string eq_refl).
Defined.
